(** * HealthWatcher: the dashboard controller of [dashboard.js]

    A shallow embedding of the class [HealthDashboard]: its polling loop,
    the rendering of one snapshot, the rolling chart buffer, the alert slot
    and the scan / stop requests, followed by the properties of the
    specification that concern them.

    Conventions of the embedding.
    - The document is a finite map from element ids to elements;
      [getElementById] is map lookup and a missing element is [None].
    - A method is a computation in a state-and-exception monad; an
      exception keeps the writes made before it, as in JavaScript.
    - An [async] method is cut at its [await]: the part before it registers
      a pending request, the part after it is the [_resume] function run by
      the event loop when the reply arrives.
    - [setTimeout] / [setInterval] put entries with a due time in a timer
      table; the event loop fires the earliest entry.
    - Texts that JavaScript builds from numbers and dates are kept symbolic
      ([OfNum], [LocaleTime], ...): the digits printed are the engine's
      business, not the controller's. *)

From Stdlib Require Import ZArith QArith Ascii String.
From stdpp Require Import gmap strings list.

Local Open Scope string_scope.
Local Open Scope Z_scope.
Local Open Scope list_scope.

(** ** Texts *)

Inductive jsdate :=
  | DateOf (timestamp : string)      (* new Date(timestamp) *)
  | DateAt (ms : Z).                 (* new Date() at clock value ms *)

Inductive text :=
  | Lit (s : string)
  | OfNum (q : Q)                    (* String(q), as in q + '%' *)
  | PercentFixed1 (q : Q)            (* (q * 100).toFixed(1) *)
  | LocaleTime (d : jsdate)          (* d.toLocaleTimeString() *)
  | DelayOf (index : nat)            (* String(index * 0.1) *)
  | Cat (a b : text).

(** ** The document *)

Record recItem := {
  ri_className : list string;
  ri_innerHTML : text;
  ri_animationDelay : text
}.

Inductive content :=
  | Text (t : text)                  (* written through textContent *)
  | Html (h : text)                  (* written through innerHTML *)
  | Append (c : content) (child : recItem).   (* after appendChild(child) *)

Record element := {
  el_content : content;
  el_className : list string;        (* the class attribute, as its token list *)
  el_display : string;               (* style.display; empty when not set *)
  el_width : text;                   (* style.width *)
  el_disabled : bool;
  el_prevClass : option (list string)
    (* className of previousElementSibling; None when there is no sibling *)
}.

Definition with_content (c : content) (e : element) : element :=
  {| el_content := c; el_className := el_className e; el_display := el_display e;
     el_width := el_width e; el_disabled := el_disabled e;
     el_prevClass := el_prevClass e |}.

Definition with_className (c : list string) (e : element) : element :=
  {| el_content := el_content e; el_className := c; el_display := el_display e;
     el_width := el_width e; el_disabled := el_disabled e;
     el_prevClass := el_prevClass e |}.

Definition with_display (d : string) (e : element) : element :=
  {| el_content := el_content e; el_className := el_className e; el_display := d;
     el_width := el_width e; el_disabled := el_disabled e;
     el_prevClass := el_prevClass e |}.

Definition with_width (w : text) (e : element) : element :=
  {| el_content := el_content e; el_className := el_className e;
     el_display := el_display e; el_width := w; el_disabled := el_disabled e;
     el_prevClass := el_prevClass e |}.

Definition with_disabled (b : bool) (e : element) : element :=
  {| el_content := el_content e; el_className := el_className e;
     el_display := el_display e; el_width := el_width e; el_disabled := b;
     el_prevClass := el_prevClass e |}.

Definition with_prevClass (c : list string) (e : element) : element :=
  {| el_content := el_content e; el_className := el_className e;
     el_display := el_display e; el_width := el_width e;
     el_disabled := el_disabled e; el_prevClass := Some c |}.

(** [classList.add] and [classList.remove] on the token list. *)
Definition classList_add (c : string) (e : element) : element :=
  if bool_decide (c ∈ el_className e) then e
  else with_className (el_className e ++ [c]) e.

Definition classList_remove (c : string) (e : element) : element :=
  with_className (filter (λ x, x ≠ c) (el_className e)) e.

(** ** The data of one snapshot (section 3 and 6 of the specification) *)

Record HealthSnapshot := {
  timestamp : string;
  heart_rate : Q;
  blood_oxygen : Q;
  temperature : Q;
  activity_level : Q;
  sleep_quality : Q;
  stress_level : Q;
  health_score : Q
}.

Record AnomalyResult := {
  status : option string;
  is_anomaly : bool;
  risk_level : string
}.

Record RecommendationSet := {
  priority : string;
  recommendations : option (list string)
}.

Record ModelMetrics := {
  accuracy : Q;
  total_samples : Q;
  detected_anomalies : Q
}.

(** The body of a snapshot reply in the shape the backend sends: an object
    with the four keys.  A body of another shape (null, or an object
    without [anomaly_result], [recommendations] or [metrics]) is not
    represented; on such a body lines 304, 356 and 382 throw a [TypeError]
    inside the [try] block. *)
Record Snapshot := {
  health_data : option HealthSnapshot;     (* null while waiting for a scan *)
  anomaly_result : AnomalyResult;
  recommendation_set : RecommendationSet;  (* data.recommendations *)
  metrics : option ModelMetrics            (* data.metrics.metrics *)
}.

(** ** The chart *)

Record Chart := {
  labels : list text;
  datasets : list (list Q)           (* datasets[i].data *)
}.

(** ** Replies, errors, timers, requests *)

Inductive error :=
  | Error (message : text)
  | TypeError (message : text)
  | SyntaxError (message : text).

Definition message (e : error) : text :=
  match e with Error m | TypeError m | SyntaxError m => m end.

Inductive parsed (A : Type) :=
  | BadJson (msg : text)             (* response.json() rejects *)
  | Json (a : A).
Arguments BadJson {A} msg.
Arguments Json {A} a.

Inductive reply (A : Type) :=
  | NetworkError (msg : text)        (* fetch() rejects *)
  | Response (status : Z) (body : parsed A).
Arguments NetworkError {A} msg.
Arguments Response {A} status body.

(** [response.ok]: the status is in the range 200-299. *)
Definition ok (status : Z) : bool := (200 <=? status) && (status <=? 299).

Inductive callback :=
  | CbUpdateHealthData               (* () => this.updateHealthData() *)
  | CbHideAlert                      (* () => alertSection.style.display = 'none' *)
  | CbRemoveUpdated (id : string).   (* () => element.classList.remove('updated') *)

Record timer := {
  tid : nat;
  due : Z;
  period : option Z;                 (* Some p for setInterval *)
  cb : callback
}.

Inductive request :=
  | HealthDataReq
  | RetrainReq (originalText : content)
  | NormalScanReq (originalText : content)
  | EmergencyScanReq (originalText : content)
  | StopReq (originalText : content).

(** ** The state: the fields of [HealthDashboard] and its environment *)

Record state := {
  isUpdating : bool;
  chart : option Chart;
  lastUpdateTime : option Z;
  emergencyMode : bool;
  updateTimer : option nat;
  document : gmap string element;
  now : Z;                           (* the clock, in ms *)
  nextTimer : nat;                   (* next timer id; ids are positive *)
  timers : list timer;
  pending : list request;            (* fetches awaiting their reply *)
  sent : list string                 (* every request issued, oldest first *)
}.

Definition updateInterval : Z := 5000.

Definition set_isUpdating (b : bool) (s : state) : state :=
  {| isUpdating := b; chart := chart s; lastUpdateTime := lastUpdateTime s;
     emergencyMode := emergencyMode s; updateTimer := updateTimer s; document := document s;
     now := now s; nextTimer := nextTimer s; timers := timers s;
     pending := pending s; sent := sent s |}.

Definition set_chart (c : option Chart) (s : state) : state :=
  {| isUpdating := isUpdating s; chart := c; lastUpdateTime := lastUpdateTime s;
     emergencyMode := emergencyMode s; updateTimer := updateTimer s; document := document s;
     now := now s; nextTimer := nextTimer s; timers := timers s;
     pending := pending s; sent := sent s |}.

Definition set_lastUpdateTime (t : option Z) (s : state) : state :=
  {| isUpdating := isUpdating s; chart := chart s; lastUpdateTime := t;
     emergencyMode := emergencyMode s; updateTimer := updateTimer s; document := document s;
     now := now s; nextTimer := nextTimer s; timers := timers s;
     pending := pending s; sent := sent s |}.

Definition set_emergencyMode (b : bool) (s : state) : state :=
  {| isUpdating := isUpdating s; chart := chart s; lastUpdateTime := lastUpdateTime s;
     emergencyMode := b; updateTimer := updateTimer s; document := document s;
     now := now s; nextTimer := nextTimer s; timers := timers s;
     pending := pending s; sent := sent s |}.

Definition set_updateTimer (t : option nat) (s : state) : state :=
  {| isUpdating := isUpdating s; chart := chart s; lastUpdateTime := lastUpdateTime s;
     emergencyMode := emergencyMode s; updateTimer := t; document := document s;
     now := now s; nextTimer := nextTimer s; timers := timers s;
     pending := pending s; sent := sent s |}.

Definition set_document (d : gmap string element) (s : state) : state :=
  {| isUpdating := isUpdating s; chart := chart s; lastUpdateTime := lastUpdateTime s;
     emergencyMode := emergencyMode s; updateTimer := updateTimer s; document := d;
     now := now s; nextTimer := nextTimer s; timers := timers s;
     pending := pending s; sent := sent s |}.

Definition set_now (t : Z) (s : state) : state :=
  {| isUpdating := isUpdating s; chart := chart s; lastUpdateTime := lastUpdateTime s;
     emergencyMode := emergencyMode s; updateTimer := updateTimer s; document := document s;
     now := t; nextTimer := nextTimer s; timers := timers s;
     pending := pending s; sent := sent s |}.

Definition set_timers (n : nat) (l : list timer) (s : state) : state :=
  {| isUpdating := isUpdating s; chart := chart s; lastUpdateTime := lastUpdateTime s;
     emergencyMode := emergencyMode s; updateTimer := updateTimer s; document := document s;
     now := now s; nextTimer := n; timers := l;
     pending := pending s; sent := sent s |}.

Definition set_pending (l : list request) (s : state) : state :=
  {| isUpdating := isUpdating s; chart := chart s; lastUpdateTime := lastUpdateTime s;
     emergencyMode := emergencyMode s; updateTimer := updateTimer s; document := document s;
     now := now s; nextTimer := nextTimer s; timers := timers s;
     pending := l; sent := sent s |}.

Definition set_sent (l : list string) (s : state) : state :=
  {| isUpdating := isUpdating s; chart := chart s; lastUpdateTime := lastUpdateTime s;
     emergencyMode := emergencyMode s; updateTimer := updateTimer s; document := document s;
     now := now s; nextTimer := nextTimer s; timers := timers s;
     pending := pending s; sent := l |}.

(** ** The monad of methods *)

Inductive outcome (A : Type) :=
  | Ret (a : A) (s : state)
  | Exn (e : error) (s : state).
Arguments Ret {A} a s.
Arguments Exn {A} e s.

Definition M (A : Type) : Type := state → outcome A.

#[export] Instance M_ret : MRet M := λ A a s, Ret a s.
#[export] Instance M_bind : MBind M := λ A B k m s,
  match m s with
  | Ret a s' => k a s'
  | Exn e s' => Exn e s'
  end.

Definition throw {A} (e : error) : M A := λ s, Exn e s.
Definition modify (f : state → state) : M unit := λ s, Ret tt (f s).
Definition gets {A} (f : state → A) : M A := λ s, Ret (f s) s.

(** The state an outcome ends in, whether it returned or threw. *)
Definition final {A} (o : outcome A) : state :=
  match o with Ret _ s | Exn _ s => s end.

Definition threw {A} (o : outcome A) : bool :=
  match o with Ret _ _ => false | Exn _ _ => true end.

(** [try { body } catch (error) { handler } finally { fin }]. *)
Definition try_catch_finally (body : M unit) (handler : error → M unit)
    (fin : M unit) : M unit :=
  λ s,
    let r := match body s with
             | Ret a s' => Ret a s'
             | Exn e s' => handler e s'
             end in
    match r with
    | Ret a s' => fin s'
    | Exn e s' => match fin s' with
                  | Ret _ s'' => Exn e s''
                  | Exn e' s'' => Exn e' s''
                  end
    end.

Fixpoint forEach {A} (l : list A) (f : A → M unit) : M unit :=
  match l with
  | [] => mret tt
  | x :: l' => f x ;; forEach l' f
  end.

(** Writes to the element [id] of the document; [getElementById] is
    [document s !! id]. *)
Definition update_element (id : string) (f : element → element) : M unit :=
  modify (λ s, set_document (alter f id (document s)) s).

Definition setTimeout (c : callback) (delay : Z) : M nat :=
  λ s, Ret (nextTimer s)
    (set_timers (S (nextTimer s))
       (timers s ++ [{| tid := nextTimer s; due := now s + delay;
                        period := None; cb := c |}]) s).

Definition setInterval (c : callback) (delay : Z) : M nat :=
  λ s, Ret (nextTimer s)
    (set_timers (S (nextTimer s))
       (timers s ++ [{| tid := nextTimer s; due := now s + delay;
                        period := Some delay; cb := c |}]) s).

Definition clearInterval (id : nat) : M unit :=
  modify (λ s, set_timers (nextTimer s)
                 (filter (λ t, tid t ≠ id) (timers s)) s).

(** [fetch(url)]: the request is logged and waits for its reply. *)
Definition fetch (url : string) (r : request) : M unit :=
  modify (λ s, set_pending (pending s ++ [r]) (set_sent (sent s ++ [url]) s)).

Definition getElementById (id : string) : M (option element) :=
  gets (λ s, document s !! id).

(** JavaScript truthiness of an element reference or of a timer id. *)
Definition present {A} (o : option A) : bool :=
  match o with Some _ => true | None => false end.

Definition truthy_id (o : option nat) : bool :=
  match o with Some (S _) => true | _ => false end.

(** Awaiting [fetch] and [response.json()]. *)
Definition await_fetch {A} (r : reply A) : M (Z * parsed A) :=
  match r with
  | NetworkError msg => throw (TypeError msg)
  | Response st b => mret (st, b)
  end.

Definition await_json {A} (b : parsed A) : M A :=
  match b with
  | BadJson msg => throw (SyntaxError msg)
  | Json a => mret a
  end.

(** Markup: a double quote is character 34. *)
Definition dq : string := String (ascii_of_nat 34) EmptyString.

Definition icon (classes : string) : string :=
  "<i class=" +:+ dq +:+ classes +:+ dq +:+ "></i>".

(** [String.prototype.toLowerCase] on strings of ASCII characters, where
    it changes the letters A-Z only; on other strings the method of the
    host also lowers letters outside ASCII, which this function leaves. *)
Definition lower_ascii (c : ascii) : ascii :=
  let n := nat_of_ascii c in
  if ((65 <=? n)%nat && (n <=? 90)%nat)%bool then ascii_of_nat (n + 32) else c.

Fixpoint toLowerCase (s : string) : string :=
  match s with
  | EmptyString => EmptyString
  | String c s' => String (lower_ascii c) (toLowerCase s')
  end.

(** ** The methods of [HealthDashboard], in the order of the source *)

Definition initChart : M unit :=
  ctx ← getElementById "healthChart";
  if negb (present ctx) then mret tt
  else modify (set_chart (Some {| labels := []; datasets := [[]; []; []; []] |})).

Definition showLoading (show : bool) : M unit :=
  overlay ← getElementById "loadingOverlay";
  if present overlay then
    if show then update_element "loadingOverlay" (classList_add "show")
    else update_element "loadingOverlay" (classList_remove "show")
  else mret tt.

Definition updateConnectionStatus (connected : bool) : M unit :=
  statusElement ← getElementById "connectionStatus";
  match statusElement with
  | Some el =>
      update_element "connectionStatus"
        (with_content (Text (Lit (if connected then "Connected" else "Disconnected"))));;
      match el_prevClass el with
      | Some _ =>
          update_element "connectionStatus"
            (with_prevClass (if connected
                             then ["fas"; "fa-wifi"; "text-success"; "me-1"]
                             else ["fas"; "fa-wifi"; "text-danger"; "me-1"]))
      | None =>
          throw (TypeError (Lit "Cannot set properties of null (setting 'className')"))
      end
  | None => mret tt
  end.

Definition showAlert (type : string) (msg : text) : M unit :=
  alertSection ← getElementById "alertSection";
  alertElement ← getElementById "healthAlert";
  messageElement ← getElementById "alertMessage";
  if present alertSection && present alertElement && present messageElement then
    update_element "healthAlert"
      (with_className ["alert"; "alert-" +:+ type; "alert-dismissible"; "fade"; "show"]);;
    update_element "alertMessage" (with_content (Text msg));;
    update_element "alertSection" (with_display "block");;
    setTimeout CbHideAlert 5000;;
    mret tt
  else mret tt.

Definition updateLastUpdateTime : M unit :=
  element ← getElementById "lastUpdate";
  lastUpdateTime ← gets lastUpdateTime;
  match element, lastUpdateTime with
  | Some _, Some t =>
      update_element "lastUpdate"
        (with_content (Text (Cat (Lit "Last updated: ") (LocaleTime (DateAt t)))))
  | _, _ => mret tt
  end.

Definition updateMetrics (healthData : option HealthSnapshot) : M unit :=
  match healthData with
  | None =>
      forEach ["heartRate"; "bloodOxygen"; "temperature";
               "activityLevel"; "sleepQuality"; "stressLevel"]
        (λ id, el ← getElementById id;
               if present el then update_element id (with_content (Text (Lit "--")))
               else mret tt)
  | Some h =>
      forEach [("heartRate", OfNum (heart_rate h));
               ("bloodOxygen", Cat (OfNum (blood_oxygen h)) (Lit "%"));
               ("temperature", Cat (OfNum (temperature h)) (Lit "°F"));
               ("activityLevel", OfNum (activity_level h));
               ("sleepQuality", OfNum (sleep_quality h));
               ("stressLevel", OfNum (stress_level h))]
        (λ metric, el ← getElementById metric.1;
                   if present el then
                     update_element metric.1 (with_content (Text metric.2));;
                     update_element metric.1 (classList_add "updated");;
                     setTimeout (CbRemoveUpdated metric.1) 1000;;
                     mret tt
                   else mret tt)
  end.

(** The colour of the score bar, lines 343-350: the class is reset to
    [progress-bar] and one band token is added. *)
Definition scoreBand (healthScore : Q) : string :=
  if Qle_bool (inject_Z 80) healthScore then "bg-success"
  else if Qle_bool (inject_Z 60) healthScore then "bg-warning"
  else "bg-danger".

Definition updateHealthStatus (anomalyResult : AnomalyResult)
    (healthData : option HealthSnapshot) : M unit :=
  statusElement ← getElementById "healthStatus";
  indicatorElement ← getElementById "statusIndicator";
  scoreElement ← getElementById "healthScore";
  scoreBarElement ← getElementById "healthScoreBar";
  returned ←
    (if present statusElement && present indicatorElement then
       if bool_decide (status anomalyResult = Some "Waiting for fingerprint scan...") then
         update_element "healthStatus" (with_content (Text (Lit "Waiting for scan...")));;
         update_element "statusIndicator"
           (with_content (Html (Lit (icon "fas fa-circle text-secondary"))));;
         mret true                                   (* return *)
       else
         let isAnomaly := is_anomaly anomalyResult in
         let riskLevel := risk_level anomalyResult in
         (if isAnomaly then
            update_element "healthStatus"
              (with_content (Text (Lit ("Anomaly Detected (" +:+ riskLevel +:+ " Risk)"))));;
            update_element "statusIndicator"
              (with_content (Html (Lit (icon "fas fa-circle text-danger emergency"))));;
            modify (set_emergencyMode true);;
            if bool_decide (riskLevel = "High") then
              showAlert "danger"
                (Lit "High risk health anomaly detected! Please monitor your symptoms closely.")
            else if bool_decide (riskLevel = "Medium") then
              showAlert "warning"
                (Lit "Moderate health anomaly detected. Keep an eye on your metrics.")
            else mret tt
          else
            update_element "healthStatus" (with_content (Text (Lit "Normal")));;
            update_element "statusIndicator"
              (with_content (Html (Lit (icon "fas fa-circle text-success normal"))));;
            modify (set_emergencyMode false));;
         mret false
     else mret false);
  if (returned : bool) then mret tt
  else if present scoreElement && present scoreBarElement then
    match healthData with
    | None =>
        update_element "healthScore" (with_content (Text (Lit "--")));;
        update_element "healthScoreBar" (with_width (Lit "0%"));;
        update_element "healthScoreBar" (with_className ["progress-bar"])
    | Some h =>
        let healthScore := health_score h in
        update_element "healthScore" (with_content (Text (OfNum healthScore)));;
        update_element "healthScoreBar" (with_width (Cat (OfNum healthScore) (Lit "%")));;
        update_element "healthScoreBar" (with_className ["progress-bar"]);;
        update_element "healthScoreBar" (classList_add (scoreBand healthScore))
    end
  else mret tt.

Definition updateRecommendations (recs : RecommendationSet) : M unit :=
  listElement ← getElementById "recommendationsList";
  match listElement, recommendations recs with
  | Some _, Some l =>
      update_element "recommendationsList" (with_content (Html (Lit "")));;
      forEach (imap (λ index rec, (index, rec)) l)
        (λ ir,
           update_element "recommendationsList"
             (λ e, with_content
                (Append (el_content e)
                   {| ri_className :=
                        ["recommendation-item"; "priority-" +:+ toLowerCase (priority recs)];
                      (* the template literal, without the white space between tags *)
                      ri_innerHTML :=
                        Lit ("<div class=" +:+ dq +:+ "d-flex align-items-start" +:+ dq +:+ ">"
                             +:+ icon "fas fa-lightbulb me-2 mt-1"
                             +:+ "<span>" +:+ ir.2 +:+ "</span></div>");
                      ri_animationDelay := Cat (DelayOf ir.1) (Lit "s") |}) e));;
      if bool_decide (length l = 0%nat) then
        update_element "recommendationsList"
          (with_content (Html (Lit ("<p class=" +:+ dq +:+ "text-muted" +:+ dq +:+
             ">No specific recommendations at this time. Keep monitoring your health!</p>"))))
      else mret tt
  | _, _ => mret tt
  end.

Definition updateModelMetrics (metrics : option ModelMetrics) : M unit :=
  match metrics with
  | None => mret tt
  | Some m =>
      accuracyElement ← getElementById "modelAccuracy";
      samplesElement ← getElementById "trainingSamples";
      anomaliesElement ← getElementById "anomaliesDetected";
      (if present accuracyElement then
         update_element "modelAccuracy"
           (with_content (Text (Cat (PercentFixed1 (accuracy m)) (Lit "%"))))
       else mret tt);;
      (if present samplesElement then
         update_element "trainingSamples" (with_content (Text (OfNum (total_samples m))))
       else mret tt);;
      (if present anomaliesElement then
         update_element "anomaliesDetected"
           (with_content (Text (OfNum (detected_anomalies m))))
       else mret tt)
  end.

(** [this.chart.data.datasets[i].data.push(v)]; reading [.data] of a
    missing dataset is a TypeError. *)
Definition push_data (i : nat) (v : Q) : M unit :=
  c ← gets chart;
  match c with
  | Some c =>
      match (datasets c : list (list Q)) !! i with
      | Some d =>
          modify (set_chart (Some {| labels := labels c;
                                     datasets := <[i := d ++ [v]]> (datasets c) |}))
      | None => throw (TypeError (Lit "Cannot read properties of undefined (reading 'data')"))
      end
  | None => throw (TypeError (Lit "Cannot read properties of null (reading 'data')"))
  end.

Definition maxPoints : nat := 20.

Definition updateChart (healthData : option HealthSnapshot) : M unit :=
  c ← gets chart;
  if negb (present c) then mret tt
  else
    match healthData with
    | None => throw (TypeError (Lit "Cannot read properties of null (reading 'timestamp')"))
    | Some h =>
        let time := LocaleTime (DateOf (timestamp h)) in
        (* Add new data point *)
        modify (λ s, set_chart
                  ((λ c, {| labels := labels c ++ [time]; datasets := datasets c |})
                     <$> chart s) s);;
        push_data 0 (heart_rate h);;
        push_data 1 (blood_oxygen h);;
        push_data 2 (temperature h);;
        push_data 3 (health_score h);;
        (* Keep only last 20 data points *)
        c ← gets chart;
        if bool_decide (maxPoints < length (from_option labels [] c))%nat then
          modify (λ s, set_chart
                    ((λ c, {| labels := tail (labels c);
                              datasets := tail <$> datasets c |}) <$> chart s) s)
        else mret tt
    end.

(** *** The polling loop *)

(** [new Error(`HTTP error! status: ${response.status}`)]. *)
Definition httpError (st : Z) : error :=
  Error (Cat (Lit "HTTP error! status: ") (OfNum (inject_Z st))).

Definition updateHealthData : M unit :=
  updating ← gets isUpdating;
  if (updating : bool) then mret tt
  else
    modify (set_isUpdating true);;
    showLoading true;;
    fetch "GET /api/health-data" HealthDataReq.

(** The rest of [updateHealthData], from the reply of the fetch to the end
    of the [finally] block. *)
Definition updateHealthData_resume (r : reply Snapshot) : M unit :=
  try_catch_finally
    (response ← await_fetch r;
     if negb (ok response.1) then throw (httpError response.1)
     else
       data ← await_json response.2;
       (* Update UI with new data *)
       updateMetrics (health_data data);;
       updateHealthStatus (anomaly_result data) (health_data data);;
       updateRecommendations (recommendation_set data);;
       updateModelMetrics (metrics data);;
       updateChart (health_data data);;
       modify (λ s, set_lastUpdateTime (Some (now s)) s);;
       updateLastUpdateTime;;
       updateConnectionStatus true)
    (λ error,
       showAlert "error" (Cat (Lit "Failed to update health data: ") (message error));;
       updateConnectionStatus false)
    (showLoading false;;
     modify (set_isUpdating false)).

Definition startDataUpdates : M unit :=
  t ← gets updateTimer;
  (if truthy_id t then clearInterval (default 0%nat t) else mret tt);;
  id ← setInterval CbUpdateHealthData updateInterval;
  modify (set_updateTimer (Some id));;
  updateConnectionStatus true.

Definition stopDataUpdates : M unit :=
  t ← gets updateTimer;
  (if truthy_id t then
     clearInterval (default 0%nat t);;
     modify (set_updateTimer None)
   else mret tt);;
  updateConnectionStatus false.

(** The [visibilitychange] listener of [setupEventListeners]. *)
Definition onVisibilityChange (hidden : bool) : M unit :=
  if hidden then stopDataUpdates else startDataUpdates.

Definition init : M unit :=
  initChart;;
  (* setupEventListeners registers the listeners modelled by [step] below *)
  startDataUpdates;;
  updateHealthData.

Definition constructor : M unit :=
  modify (set_isUpdating false);;
  modify (set_chart None);;
  modify (set_lastUpdateTime None);;
  modify (set_emergencyMode false);;
  init.

(** *** Retraining, scans and stop

    Each method is cut at [await fetch(...)].  The elements it looked up
    before the await are looked up again by id in the second part: no
    method removes or replaces an element, so the references are the same.

    The body of a reply is represented by what the method reads of it:
    [Json m] is an object whose [message] is [m] (for a retrain, whose
    body is not read, any parsable body).  A body without that shape, such
    as null, on which [result.message] throws, is not represented. *)

Definition spinner (label : string) : content :=
  Html (Lit (icon "fas fa-spinner fa-spin me-2" +:+ label)).

Definition retrainModel : M unit :=
  button ← getElementById "retrainBtn";
  match button with
  | None => mret tt
  | Some b =>
      let originalText := el_content b in
      update_element "retrainBtn" (with_disabled true);;
      update_element "retrainBtn" (with_content (spinner "Retraining..."));;
      fetch "GET /api/retrain-model" (RetrainReq originalText)
  end.

Definition retrainModel_resume (originalText : content) (r : reply text) : M unit :=
  try_catch_finally
    (response ← await_fetch r;
     if negb (ok response.1) then throw (httpError response.1)
     else
       result ← await_json response.2;
       showAlert "success" (Lit "Model retrained successfully!");;
       (* Update metrics after retraining *)
       setTimeout CbUpdateHealthData 1000;;
       mret tt)
    (λ error, showAlert "danger" (Cat (Lit "Failed to retrain model: ") (message error)))
    (update_element "retrainBtn" (with_disabled false);;
     update_element "retrainBtn" (with_content originalText)).

Definition triggerNormalScan : M unit :=
  normalBtn ← getElementById "normalScanBtn";
  match normalBtn with
  | None => mret tt
  | Some b =>
      let originalText := el_content b in
      update_element "normalScanBtn" (with_disabled true);;
      update_element "normalScanBtn" (with_content (spinner "Scanning..."));;
      fetch "POST /api/normal-scan" (NormalScanReq originalText)
  end.

Definition triggerNormalScan_resume (originalText : content) (r : reply text) : M unit :=
  try_catch_finally
    (response ← await_fetch r;
     if negb (ok response.1) then throw (httpError response.1)
     else
       result ← await_json response.2;
       showAlert "success" result;;
       (* Hide fingerprint section and show stop button *)
       fingerprintSection ← getElementById "fingerprintSection";
       stopBtn ← getElementById "stopBtn";
       (if present fingerprintSection
        then update_element "fingerprintSection" (with_display "none") else mret tt);;
       (if present stopBtn
        then update_element "stopBtn" (with_display "block") else mret tt);;
       (* Force immediate update to show normal data *)
       setTimeout CbUpdateHealthData 500;;
       mret tt)
    (λ error,
       showAlert "danger" (Cat (Lit "Failed to start normal monitoring: ") (message error)))
    (update_element "normalScanBtn" (with_disabled false);;
     update_element "normalScanBtn" (with_content originalText)).

Definition triggerEmergencyScan : M unit :=
  emergencyBtn ← getElementById "emergencyScanBtn";
  match emergencyBtn with
  | None => mret tt
  | Some b =>
      let originalText := el_content b in
      update_element "emergencyScanBtn" (with_disabled true);;
      update_element "emergencyScanBtn" (with_content (spinner "Scanning..."));;
      fetch "POST /api/fingerprint-scan" (EmergencyScanReq originalText)
  end.

Definition triggerEmergencyScan_resume (originalText : content) (r : reply text) : M unit :=
  try_catch_finally
    (response ← await_fetch r;
     if negb (ok response.1) then throw (httpError response.1)
     else
       result ← await_json response.2;
       showAlert "danger" result;;
       (* Hide fingerprint section and show stop button *)
       fingerprintSection ← getElementById "fingerprintSection";
       stopBtn ← getElementById "stopBtn";
       (if present fingerprintSection
        then update_element "fingerprintSection" (with_display "none") else mret tt);;
       (if present stopBtn
        then update_element "stopBtn" (with_display "block") else mret tt);;
       (* Force immediate update to show emergency data *)
       setTimeout CbUpdateHealthData 500;;
       mret tt)
    (λ error,
       showAlert "danger" (Cat (Lit "Failed to start emergency monitoring: ") (message error)))
    (update_element "emergencyScanBtn" (with_disabled false);;
     update_element "emergencyScanBtn" (with_content originalText)).

Definition stopMonitoring : M unit :=
  stopBtn ← getElementById "stopBtn";
  match stopBtn with
  | None => mret tt
  | Some b =>
      let originalText := el_content b in
      update_element "stopBtn" (with_disabled true);;
      update_element "stopBtn" (with_content (spinner "Stopping..."));;
      fetch "POST /api/reset-emergency" (StopReq originalText)
  end.

Definition stopMonitoring_resume (originalText : content) (r : reply text) : M unit :=
  try_catch_finally
    (response ← await_fetch r;
     if negb (ok response.1) then throw (httpError response.1)
     else
       result ← await_json response.2;
       showAlert "info" result;;
       (* Show fingerprint section and hide stop button *)
       fingerprintSection ← getElementById "fingerprintSection";
       stopBtn ← getElementById "stopBtn";
       (if present fingerprintSection
        then update_element "fingerprintSection" (with_display "block") else mret tt);;
       (if present stopBtn
        then update_element "stopBtn" (with_display "none") else mret tt);;
       (* Force immediate update to show waiting state *)
       setTimeout CbUpdateHealthData 500;;
       mret tt)
    (λ error, showAlert "danger" (Cat (Lit "Failed to stop monitoring: ") (message error)))
    (update_element "stopBtn" (with_disabled false);;
     update_element "stopBtn" (with_content originalText)).

(** ** The event loop *)

Definition run_callback (c : callback) : M unit :=
  match c with
  | CbUpdateHealthData => updateHealthData
  | CbHideAlert => update_element "alertSection" (with_display "none")
  | CbRemoveUpdated id => update_element id (classList_remove "updated")
  end.

(** The timer that fires next: the earliest due time, the older entry
    first among equals. *)
Fixpoint next_timer (l : list timer) : option timer :=
  match l with
  | [] => None
  | t :: l' =>
      match next_timer l' with
      | Some u => Some (if due u <? due t then u else t)
      | None => Some t
      end
  end.

(** After it fired, a timeout is dropped and an interval is armed again. *)
Definition rearm (t : timer) (at_ : Z) (l : list timer) : list timer :=
  match period t with
  | Some p =>
      (λ u, if bool_decide (tid u = tid t)
            then {| tid := tid t; due := at_ + p; period := Some p; cb := cb t |}
            else u) <$> l
  | None => filter (λ u, tid u ≠ tid t) l
  end.

(** A timer never fires before it is due; it may fire late. *)
Definition fire (t : timer) : M unit :=
  modify (λ s, set_now (Z.max (now s) (due t)) s);;
  modify (λ s, set_timers (nextTimer s) (rearm t (now s) (timers s)) s);;
  run_callback (cb t).

Inductive button := RetrainBtn | NormalScanBtn | EmergencyScanBtn | StopBtn.

Definition button_id (b : button) : string :=
  match b with
  | RetrainBtn => "retrainBtn"
  | NormalScanBtn => "normalScanBtn"
  | EmergencyScanBtn => "emergencyScanBtn"
  | StopBtn => "stopBtn"
  end.

Definition onClick (b : button) : M unit :=
  match b with
  | RetrainBtn => retrainModel
  | NormalScanBtn => triggerNormalScan
  | EmergencyScanBtn => triggerEmergencyScan
  | StopBtn => stopMonitoring
  end.

(** The pending list without its first [/api/health-data] fetch, if any. *)
Fixpoint take_health (l : list request) : option (list request) :=
  match l with
  | [] => None
  | HealthDataReq :: l' => Some l'
  | r :: l' => (r ::.) <$> take_health l'
  end.

Inductive event :=
  | Wait (dt : Z)                       (* time passes *)
  | TimerFires                          (* the next timer runs its callback *)
  | HealthReply (r : reply Snapshot)    (* the pending /api/health-data fetch settles *)
  | ActionReply (i : nat) (r : reply text)  (* the i-th pending request settles *)
  | Click (b : button)
  | VisibilityChange (hidden : bool).

(** One turn of the event loop.  An exception that escapes a listener is
    an unhandled rejection: the state it left stays. *)
Definition step (ev : event) (s : state) : state :=
  match ev with
  | Wait dt => set_now (now s + Z.max 0 dt) s
  | TimerFires =>
      match next_timer (timers s) with
      | Some t => final (fire t s)
      | None => s
      end
  | HealthReply r =>
      match take_health (pending s) with
      | Some l => final (updateHealthData_resume r (set_pending l s))
      | None => s
      end
  | ActionReply i r =>
      let s' := set_pending (delete i (pending s)) s in
      match pending s !! i with
      | Some (RetrainReq o) => final (retrainModel_resume o r s')
      | Some (NormalScanReq o) => final (triggerNormalScan_resume o r s')
      | Some (EmergencyScanReq o) => final (triggerEmergencyScan_resume o r s')
      | Some (StopReq o) => final (stopMonitoring_resume o r s')
      | Some HealthDataReq | None => s
      end
  | Click b =>
      match document s !! button_id b with
      | Some e => if el_disabled e then s else final (onClick b s)
      | None => s
      end
  | VisibilityChange hidden => final (onVisibilityChange hidden s)
  end.

Definition run (evs : list event) (s : state) : state :=
  foldl (λ s ev, step ev s) s evs.

(** Time passes until [t]: every timer due by then fires, in order, at its
    due time; [fuel] bounds the number of firings. *)
Fixpoint run_until (fuel : nat) (t : Z) (s : state) : state :=
  match fuel with
  | O => s
  | S fuel' =>
      match next_timer (timers s) with
      | Some tm =>
          if due tm <=? t then run_until fuel' t (final (fire tm s))
          else set_now (Z.max (now s) t) s
      | None => set_now (Z.max (now s) t) s
      end
  end.

(** ** The page of [index.html]

    The elements that carry an id, with their initial text, classes and
    inline display.  Markup is kept without the white space between tags;
    [el_prevClass] is filled in for [connectionStatus], the one element
    whose previous sibling the controller touches. *)

Definition node (c : content) (classes : list string) (display : string) : element :=
  {| el_content := c; el_className := classes; el_display := display;
     el_width := Lit ""; el_disabled := false; el_prevClass := None |}.

Definition index_html : gmap string element :=
  list_to_map [
    ("connectionStatus",
       with_prevClass ["fas"; "fa-wifi"; "text-success"; "me-1"]
         (node (Text (Lit "Connected")) [] ""));
    ("alertSection", node (Html (Lit "")) ["mb-4"] "none");
    ("healthAlert", node (Html (Lit "")) ["alert"; "alert-dismissible"; "fade"; "show"] "");
    ("alertMessage", node (Text (Lit "")) [] "");
    ("statusIndicator",
       node (Html (Lit (icon "fas fa-circle text-success")))
         ["health-status-indicator"; "me-3"] "");
    ("healthStatus", node (Text (Lit "Normal")) ["mb-0"] "");
    ("healthScore", node (Text (Lit "--")) ["mb-0"] "");
    ("healthScoreBar", with_width (Lit "0%") (node (Html (Lit "")) ["progress-bar"] ""));
    ("lastUpdate", node (Text (Lit "Last updated: --")) ["text-muted"] "");
    ("heartRate", node (Text (Lit "--")) ["metric-value"] "");
    ("bloodOxygen", node (Text (Lit "--")) ["metric-value"] "");
    ("temperature", node (Text (Lit "--")) ["metric-value"] "");
    ("activityLevel", node (Text (Lit "--")) ["metric-value"] "");
    ("sleepQuality", node (Text (Lit "--")) ["metric-value"] "");
    ("stressLevel", node (Text (Lit "--")) ["metric-value"] "");
    ("modelAccuracy", node (Text (Lit "--")) [] "");
    ("trainingSamples", node (Text (Lit "--")) [] "");
    ("anomaliesDetected", node (Text (Lit "--")) [] "");
    ("retrainBtn",
       node (Html (Lit (icon "fas fa-sync-alt me-2" +:+ "Retrain Model")))
         ["btn"; "btn-outline-primary"; "btn-sm"; "w-100"; "mb-2"] "");
    ("fingerprintSection", node (Html (Lit "")) [] "");
    ("normalScanBtn",
       node (Html (Lit (icon "fas fa-fingerprint me-2" +:+ "Normal Health Scan")))
         ["btn"; "btn-success"; "btn-sm"; "w-100"; "mb-2"] "");
    ("emergencyScanBtn",
       node (Html (Lit (icon "fas fa-fingerprint me-2" +:+ "Emergency Test Scan")))
         ["btn"; "btn-danger"; "btn-sm"; "w-100"; "mb-2"] "");
    ("stopBtn",
       node (Html (Lit (icon "fas fa-stop me-2" +:+ "Stop Monitoring")))
         ["btn"; "btn-outline-secondary"; "btn-sm"; "w-100"] "none");
    ("healthChart", node (Html (Lit "")) [] "");
    ("recommendationsList",
       node (Html (Lit ("<p class=" +:+ dq +:+ "text-muted" +:+ dq +:+
                        ">Loading recommendations...</p>"))) [] "");
    ("loadingOverlay", node (Html (Lit "")) ["loading-overlay"] "")
  ].

(** The state when [DOMContentLoaded] fires, and after the listener has
    run [new HealthDashboard()]. *)
Definition loaded : state :=
  {| isUpdating := false; chart := None; lastUpdateTime := None;
     emergencyMode := false; updateTimer := None; document := index_html;
     now := 0; nextTimer := 1; timers := []; pending := []; sent := [] |}.

Definition booted : state := final (constructor loaded).

(** ** Vocabulary of the properties *)

(** *** Observations of methods *)

(** A method leaves the observation [f] of the state as it found it,
    whether it returns or throws. *)
Definition preserves {A B} (f : state → B) (m : M A) : Prop :=
  ∀ s, f (final (m s)) = f s.

(** A method that cannot throw. *)
Definition returns {A} (m : M A) : Prop := ∀ s, threw (m s) = false.

Definition has (s : state) (id : string) : Prop := is_Some (document s !! id).

(** *** The chart *)

(** The last [maxPoints] entries of a list, in order. *)
Definition window {A} (l : list A) : list A := drop (length l - maxPoints) l.

Definition label_of (h : HealthSnapshot) : text := LocaleTime (DateOf (timestamp h)).

(** The chart that shows the last [maxPoints] of the readings [hs], oldest
    first: one label and one value per dataset for each reading. *)
Definition charted (hs : list HealthSnapshot) : Chart :=
  {| labels := window (label_of <$> hs);
     datasets := [window (heart_rate <$> hs); window (blood_oxygen <$> hs);
                  window (temperature <$> hs); window (health_score <$> hs)] |}.

(** One complete snapshot update: [updateHealthData] is called and its
    fetch is answered with status [r.1] and body [r.2]. *)
Definition poll (r : Z * Snapshot) (s : state) : state :=
  step (HealthReply (Response r.1 (Json r.2))) (final (updateHealthData s)).

Definition polls (rs : list (Z * Snapshot)) (s : state) : state :=
  foldl (λ s r, poll r s) s rs.

(** A reply succeeds with the reading [h]. *)
Definition delivers (r : Z * Snapshot) (h : HealthSnapshot) : Prop :=
  ok r.1 = true ∧ health_data r.2 = Some h.

(** *** Fetches *)

(** The number of [/api/health-data] fetches awaiting their reply. *)
Fixpoint in_flight (l : list request) : nat :=
  match l with
  | [] => 0
  | HealthDataReq :: l' => S (in_flight l')
  | _ :: l' => in_flight l'
  end.

(** The flag [isUpdating] is up exactly while one snapshot fetch is pending. *)
Definition flag_tracks_fetch (s : state) : bool :=
  if isUpdating s then (in_flight (pending s) =? 1)%nat
  else (in_flight (pending s) =? 0)%nat.

(** The flag and the number of snapshot fetches in flight, together. *)
Definition flight (s : state) : bool * nat := (isUpdating s, in_flight (pending s)).

(** A reply that makes the request fail: the fetch rejects, the status is
    not a success, or the body does not parse. *)
Definition failed {A} (r : reply A) : bool :=
  match r with
  | NetworkError _ => true
  | Response st (BadJson _) => true
  | Response st (Json _) => negb (ok st)
  end.

(** The error the [catch] block receives for a failed reply. *)
Definition failure {A} (r : reply A) : error :=
  match r with
  | NetworkError msg => TypeError msg
  | Response st b =>
      if negb (ok st) then httpError st
      else match b with
           | BadJson msg => SyntaxError msg
           | Json _ => httpError st
           end
  end.


(** *** Alerts and status *)

(** What [showAlert type msg] leaves in the alert slot. *)
Definition alert_shows (s : state) (type : string) (msg : text) : Prop :=
  el_className <$> document s !! "healthAlert"
    = Some ["alert"; "alert-" +:+ type; "alert-dismissible"; "fade"; "show"]
  ∧ el_content <$> document s !! "alertMessage" = Some (Text msg)
  ∧ el_display <$> document s !! "alertSection" = Some "block".

(** The timer that hides the alert raised at the clock value of [s]. *)
Definition hide_timer (s : state) : timer :=
  {| tid := nextTimer s; due := now s + 5000; period := None; cb := CbHideAlert |}.

(** What the status part of [updateHealthStatus] and [showAlert] write. *)
Definition status_view (s : state) :=
  (emergencyMode s, timers s, nextTimer s,
   (document s !! "healthStatus", document s !! "statusIndicator"),
   (document s !! "alertSection", document s !! "healthAlert",
    document s !! "alertMessage")).

(** *** Buttons *)

(** The second half of the method behind each button, the request it
    sends, the label it shows meanwhile, and the text its [catch] block
    puts before the error message. *)
Definition resume_of (b : button) : content → reply text → M unit :=
  match b with
  | RetrainBtn => retrainModel_resume
  | NormalScanBtn => triggerNormalScan_resume
  | EmergencyScanBtn => triggerEmergencyScan_resume
  | StopBtn => stopMonitoring_resume
  end.

Definition request_of (b : button) (originalText : content) : request :=
  match b with
  | RetrainBtn => RetrainReq originalText
  | NormalScanBtn => NormalScanReq originalText
  | EmergencyScanBtn => EmergencyScanReq originalText
  | StopBtn => StopReq originalText
  end.

Definition url_of (b : button) : string :=
  match b with
  | RetrainBtn => "GET /api/retrain-model"
  | NormalScanBtn => "POST /api/normal-scan"
  | EmergencyScanBtn => "POST /api/fingerprint-scan"
  | StopBtn => "POST /api/reset-emergency"
  end.

Definition busy_label (b : button) : string :=
  match b with
  | RetrainBtn => "Retraining..."
  | NormalScanBtn | EmergencyScanBtn => "Scanning..."
  | StopBtn => "Stopping..."
  end.

Definition failure_text (b : button) : string :=
  match b with
  | RetrainBtn => "Failed to retrain model: "
  | NormalScanBtn => "Failed to start normal monitoring: "
  | EmergencyScanBtn => "Failed to start emergency monitoring: "
  | StopBtn => "Failed to stop monitoring: "
  end.

(** *** The interval of the polling loop *)

Definition is_interval (t : timer) : bool := present (period t).

(** Every armed interval is the one [this.updateTimer] names, timer ids
    are positive and below the next id, and [this.updateTimer] is a timer
    id or null. *)
Definition intervals_owned (s : state) : bool :=
  bool_decide (updateTimer s ≠ Some 0%nat)
  && forallb (λ t, (0 <? tid t)%nat && (tid t <? nextTimer s)%nat
                   && (negb (is_interval t)
                       || bool_decide (updateTimer s = Some (tid t))))
             (timers s).

(** The interval that [startDataUpdates] arms on the state [s]. *)
Definition poll_timer (s : state) : timer :=
  {| tid := nextTimer s; due := now s + updateInterval;
     period := Some updateInterval; cb := CbUpdateHealthData |}.

(** ** Sample data and scenarios *)

Definition reading (stamp : string) (score : Q) : HealthSnapshot :=
  {| timestamp := stamp; heart_rate := 72; blood_oxygen := 98;
     temperature := inject_Z 986 / inject_Z 10; activity_level := 5;
     sleep_quality := 7; stress_level := 3; health_score := score |}.

Definition snapshot_of (hd : option HealthSnapshot) (ar : AnomalyResult) : Snapshot :=
  {| health_data := hd; anomaly_result := ar;
     recommendation_set := {| priority := "Low"; recommendations := Some [] |};
     metrics := Some {| accuracy := inject_Z 95 / inject_Z 100;
                        total_samples := 1000; detected_anomalies := 12 |} |}.

Definition verdict (anomaly : bool) (risk : string) : AnomalyResult :=
  {| status := Some "Monitoring"; is_anomaly := anomaly; risk_level := risk |}.

(** The verdict the backend sends while no scan is active. *)
Definition waiting : AnomalyResult :=
  {| status := Some "Waiting for fingerprint scan..."; is_anomaly := false;
     risk_level := "Low" |}.

(** The initial markup of the normal-scan button. *)
Definition normalScanBtn_text : content :=
  Html (Lit (icon "fas fa-fingerprint me-2" +:+ "Normal Health Scan")).

(** The dashboard once its first fetch has been answered with a reading. *)
Definition settled : state :=
  step (HealthReply (Response 200
          (Json (snapshot_of (Some (reading "09:00:00" 85)) (verdict false "Low")))))
       booted.

(** The page goes to the background and comes back. *)
Definition backgrounded : state := step (VisibilityChange true) settled.
Definition foregrounded : state := step (VisibilityChange false) backgrounded.

(** Two alerts, the second raised 3000 ms after the first, and the slot at
    5000 ms. *)
Definition first_alert : state := final (showAlert "warning" (Lit "first") loaded).
Definition second_alert : state :=
  final (showAlert "danger" (Lit "second") (run_until 10 3000 first_alert)).
Definition two_seconds_later : state := run_until 10 5000 second_alert.

(** The dashboard shows a reading; at the next tick of the interval the
    backend answers that it is waiting for a scan. *)
Definition back_to_waiting : state :=
  step (HealthReply (Response 200 (Json (snapshot_of None waiting))))
    (step TimerFires (run_until 10 4999 settled)).


(** ** Vocabulary of the further properties *)

(** *** Successful requests *)

(** The alert a button raises when its request succeeds with the message
    [result], the delay of the refresh it schedules, and the inline display
    it gives to the scan-selection section and to the stop control. *)
Definition success_alert (b : button) (result : text) : string * text :=
  match b with
  | RetrainBtn => ("success", Lit "Model retrained successfully!")
  | NormalScanBtn => ("success", result)
  | EmergencyScanBtn => ("danger", result)
  | StopBtn => ("info", result)
  end.

Definition refresh_delay (b : button) : Z :=
  match b with RetrainBtn => 1000 | _ => 500 end.

Definition layout_after (b : button) : option (string * string) :=
  match b with
  | RetrainBtn => None
  | NormalScanBtn | EmergencyScanBtn => Some ("none", "block")
  | StopBtn => Some ("block", "none")
  end.

(** The one-shot timer of a scheduled refresh. *)
Definition refresh_timer (s : state) (delay : Z) : timer :=
  {| tid := S (nextTimer s); due := now s + delay; period := None;
     cb := CbUpdateHealthData |}.

(** *** What a method writes *)

(** The method writes no element of the document outside [W]. *)
Definition writes_only {A} (W : list string) (m : M A) : Prop :=
  ∀ id, id ∉ W → preserves (λ s, document s !! id) m.

(** The elements a snapshot update renders into. *)
Definition rendered_ids : list string :=
  ["heartRate"; "bloodOxygen"; "temperature"; "activityLevel"; "sleepQuality";
   "stressLevel"; "healthStatus"; "statusIndicator"; "healthScore"; "healthScoreBar";
   "alertSection"; "healthAlert"; "alertMessage"; "recommendationsList";
   "modelAccuracy"; "trainingSamples"; "anomaliesDetected"; "lastUpdate";
   "connectionStatus"; "loadingOverlay"].

(** The elements a failed snapshot update writes. *)
Definition failure_ids : list string :=
  ["alertSection"; "healthAlert"; "alertMessage"; "connectionStatus"; "loadingOverlay"].

(** [updateChart] can run on the state [s] with the reading [hd]: there is
    no chart, or there is a reading and the chart has its four datasets. *)
Definition chartable (s : state) (hd : option HealthSnapshot) : bool :=
  match chart s with
  | None => true
  | Some c => present hd && (4 <=? length (datasets c))%nat
  end.

(** The connection indicator, if on the page, has its icon before it. *)
Definition indicator_ok (s : state) : bool :=
  match document s !! "connectionStatus" with
  | Some el => present (el_prevClass el)
  | None => true
  end.

(** What a snapshot update must leave alone, and what it reads late. *)
Definition update_view (s : state) :=
  (now s, pending s, sent s, updateTimer s, isUpdating s, chart s,
   (document s !! "connectionStatus", document s !! "lastUpdate",
    document s !! "loadingOverlay")).

(** *** Pages *)

(** The state when [DOMContentLoaded] fires on a page with the elements
    [d], and the dashboard constructed on it. *)
Definition loaded_on (d : gmap string element) : state :=
  {| isUpdating := false; chart := None; lastUpdateTime := None;
     emergencyMode := false; updateTimer := None; document := d;
     now := 0; nextTimer := 1; timers := []; pending := []; sent := [] |}.

(** The page of [index.html] without the chart canvas. *)
Definition booted_without_chart : state :=
  final (constructor (loaded_on (delete "healthChart" index_html))).

(** *** Tiles and recommendations *)

(** The tiles of [updateMetrics], and the text each shows for a reading. *)
Definition metric_ids : list string :=
  ["heartRate"; "bloodOxygen"; "temperature"; "activityLevel"; "sleepQuality";
   "stressLevel"].

Definition metric_values (h : HealthSnapshot) : list (string * text) :=
  [("heartRate", OfNum (heart_rate h));
   ("bloodOxygen", Cat (OfNum (blood_oxygen h)) (Lit "%"));
   ("temperature", Cat (OfNum (temperature h)) (Lit "°F"));
   ("activityLevel", OfNum (activity_level h));
   ("sleepQuality", OfNum (sleep_quality h));
   ("stressLevel", OfNum (stress_level h))].

(** The timers that end the highlight of the tiles, armed on [s]. *)
Definition highlight_timers (s : state) : list timer :=
  imap (λ i id, {| tid := i + nextTimer s; due := now s + 1000; period := None;
                   cb := CbRemoveUpdated id |}) metric_ids.

(** The highlight timers fire. *)
Definition highlights_end (s : state) : state :=
  foldl (λ s id, final (run_callback (CbRemoveUpdated id) s)) s metric_ids.

(** The element shown for the recommendation [rec] at position [index],
    [low] being the priority in lower case, and the message shown for an
    empty list. *)
Definition rec_item (low : string) (index : nat) (rec : string) : recItem :=
  {| ri_className := ["recommendation-item"; "priority-" +:+ low];
     ri_innerHTML :=
       Lit ("<div class=" +:+ dq +:+ "d-flex align-items-start" +:+ dq +:+ ">"
            +:+ icon "fas fa-lightbulb me-2 mt-1"
            +:+ "<span>" +:+ rec +:+ "</span></div>");
     ri_animationDelay := Cat (DelayOf index) (Lit "s") |}.

Definition no_recommendations : content :=
  Html (Lit ("<p class=" +:+ dq +:+ "text-muted" +:+ dq +:+
             ">No specific recommendations at this time. Keep monitoring your health!</p>")).

(** Lower case, by the table of the letters: [d] is the letter of the
    rank of [c] when [c] is one of A-Z, and [c] itself otherwise. *)
Definition upper_letters : list ascii := list_ascii_of_string "ABCDEFGHIJKLMNOPQRSTUVWXYZ".
Definition lower_letters : list ascii := list_ascii_of_string "abcdefghijklmnopqrstuvwxyz".

Definition lower_of (c d : ascii) : bool :=
  match list_find (λ x, x = c) upper_letters with
  | Some (i, _) => bool_decide (lower_letters !! i = Some d)
  | None => bool_decide (d = c)
  end.

Definition lower_case_of (s low : string) : Prop :=
  Forall2 (λ c d, lower_of c d = true) (list_ascii_of_string s) (list_ascii_of_string low).

(** The strings on which the lower case of the host is that of the table. *)
Definition ascii_only (s : string) : Prop :=
  Forall (λ c, (nat_of_ascii c < 128)%nat) (list_ascii_of_string s).

(** The children appended to a content, oldest first. *)
Fixpoint children (c : content) : list recItem :=
  match c with
  | Append c' child => children c' ++ [child]
  | _ => []
  end.

(** The content without its appended children. *)
Fixpoint base (c : content) : content :=
  match c with
  | Append c' _ => base c'
  | _ => c
  end.

(** *** The timer table along a run *)

(** A method relates the state it finds to the state it leaves, whether it
    returns or throws. *)
Definition relates {A} (R : state → state → Prop) (m : M A) : Prop :=
  ∀ s, R s (final (m s)).

(** From [s] to [s'] the timer table only gained timeouts, with new ids,
    and [this.updateTimer] was not assigned. *)
Definition adds_timeouts (s s' : state) : Prop :=
  updateTimer s' = updateTimer s
  ∧ (nextTimer s ≤ nextTimer s')%nat
  ∧ ∃ new, timers s' = timers s ++ new
           ∧ Forall (λ t, period t = None
                          ∧ (nextTimer s ≤ tid t)%nat ∧ (tid t < nextTimer s')%nat) new
           ∧ NoDup (tid <$> new).

(** The polling loop is single: armed intervals belong to
    [this.updateTimer] and no two timers share an id. *)
Definition loop_single (s : state) : bool :=
  intervals_owned s
  && bool_decide (NoDup (tid <$> timers s))
  && (0 <? nextTimer s)%nat.

Definition intervals (s : state) : list timer :=
  filter (λ t, is_interval t = true) (timers s).

(** The part of the state that the timer invariant reads. *)
Definition timer_view (s : state) : option nat * nat * list timer :=
  (updateTimer s, nextTimer s, timers s).

(** The chart as [initChart] creates it. *)
Definition empty_chart : Chart := {| labels := []; datasets := [[]; []; []; []] |}.

(** *** The loading overlay *)

(** Whether the overlay carries the class [show], when it is on the page. *)
Definition overlay_shown (s : state) : option bool :=
  (λ e, bool_decide ("show" ∈ el_className e)) <$> document s !! "loadingOverlay".

(** The overlay is shown exactly while [isUpdating] is up. *)
Definition overlay_tracks (s : state) : bool :=
  match overlay_shown s with
  | Some b => bool_decide (b = isUpdating s)
  | None => true
  end.

Definition overlay_view (s : state) : bool * option bool :=
  (isUpdating s, overlay_shown s).

(** *** What only a snapshot changes *)

Definition readings (s : state) : bool * option Z * option Chart :=
  (emergencyMode s, lastUpdateTime s, chart s).

Definition is_snapshot_reply (ev : event) : bool :=
  match ev with HealthReply _ => true | _ => false end.
(** ** Frame lemmas *)

Section Frame.
Context {B : Type} (f : state → B).

Lemma preserves_mret {A} (a : A) : preserves f (mret a).
Proof. by intros s. Qed.

Lemma preserves_throw {A} (e : error) : preserves f (throw (A:=A) e).
Proof. by intros s. Qed.

Lemma preserves_gets {A} (g : state → A) : preserves f (gets g).
Proof. by intros s. Qed.

Lemma preserves_modify (g : state → state) :
  (∀ s, f (g s) = f s) → preserves f (modify g).
Proof. intros H s. apply H. Qed.

Lemma preserves_bind {A C} (m : M A) (k : A → M C) :
  preserves f m → (∀ a, preserves f (k a)) → preserves f (m ≫= k).
Proof.
  intros Hm Hk s. unfold mbind, M_bind. specialize (Hm s).
  destruct (m s) as [a s'|e s']; simpl in *; [by rewrite Hk | done].
Qed.

Lemma preserves_forEach {A} (l : list A) (k : A → M unit) :
  (∀ a, preserves f (k a)) → preserves f (forEach l k).
Proof.
  intros Hk. induction l as [|x l IH]; simpl.
  - apply preserves_mret.
  - apply preserves_bind; [apply Hk | by intros _].
Qed.

Lemma preserves_try_catch_finally (body : M unit) (h : error → M unit) (fin : M unit) :
  preserves f body → (∀ e, preserves f (h e)) → preserves f fin →
  preserves f (try_catch_finally body h fin).
Proof.
  intros Hb Hh Hf s. unfold try_catch_finally.
  specialize (Hb s). destruct (body s) as [a s1|e s1]; simpl in *.
  - by rewrite Hf.
  - specialize (Hh e s1). destruct (h e s1) as [a s2|e2 s2]; simpl in *.
    + rewrite Hf. congruence.
    + specialize (Hf s2). destruct (fin s2); simpl in *; congruence.
Qed.
End Frame.

(** Solves [preserves f m] for a method [m] built from the primitives, when
    [f] reads fields that [m] does not write. *)
Ltac frame_step :=
  match goal with
  | |- preserves _ (mret _) => apply preserves_mret
  | |- preserves _ (throw _) => apply preserves_throw
  | |- preserves _ (gets _) => apply preserves_gets
  | |- preserves _ (getElementById _) => apply preserves_gets
  | |- preserves _ (modify _) => apply preserves_modify; intros; reflexivity
  | |- preserves _ (update_element _ _) => apply preserves_modify; intros; reflexivity
  | |- preserves _ (clearInterval _) => apply preserves_modify; intros; reflexivity
  | |- preserves _ (fetch _ _) => apply preserves_modify; intros; reflexivity
  | |- preserves _ (setTimeout _ _) => intros ?; reflexivity
  | |- preserves _ (setInterval _ _) => intros ?; reflexivity
  | |- preserves _ (_ ≫= _) => apply preserves_bind; [| intros ?]
  | |- preserves _ (forEach _ _) => apply preserves_forEach; intros ?
  | |- preserves _ (try_catch_finally _ _ _) =>
      apply preserves_try_catch_finally; [| intros ? |]
  | |- preserves _ (if ?b then _ else _) => destruct b
  | |- preserves _ (match ?x with _ => _ end) => destruct x
  | |- preserves _ (let _ := _ in _) => cbv zeta
  end.

Ltac frame := repeat frame_step.

Section Frames.
Context {B : Type} (f : state → B).
(** [f] reads none of the fields below; each lemma asks only for the
    fields its method writes. *)
Hypothesis f_document : ∀ d s, f (set_document d s) = f s.
Hypothesis f_timers : ∀ n l s, f (set_timers n l s) = f s.
Hypothesis f_emergencyMode : ∀ b s, f (set_emergencyMode b s) = f s.
Hypothesis f_lastUpdateTime : ∀ t s, f (set_lastUpdateTime t s) = f s.
Hypothesis f_chart : ∀ c s, f (set_chart c s) = f s.
Hypothesis f_isUpdating : ∀ b s, f (set_isUpdating b s) = f s.
Hypothesis f_updateTimer : ∀ t s, f (set_updateTimer t s) = f s.

Ltac frame' :=
  repeat first
    [ frame_step
    | apply preserves_modify; intros; apply f_document
    | apply preserves_modify; intros; apply f_timers
    | apply preserves_modify; intros; apply f_emergencyMode
    | apply preserves_modify; intros; apply f_lastUpdateTime
    | apply preserves_modify; intros; apply f_chart
    | apply preserves_modify; intros; apply f_isUpdating
    | apply preserves_modify; intros; apply f_updateTimer
    | (intros ?; apply f_timers) ].

Lemma showLoading_frame b : preserves f (showLoading b).
Proof. unfold showLoading. frame'. Qed.

Lemma updateConnectionStatus_frame b : preserves f (updateConnectionStatus b).
Proof. unfold updateConnectionStatus. frame'. Qed.

Lemma showAlert_frame ty msg : preserves f (showAlert ty msg).
Proof. unfold showAlert. frame'. Qed.

Lemma updateMetrics_frame hd : preserves f (updateMetrics hd).
Proof. unfold updateMetrics. frame'. Qed.

Lemma updateHealthStatus_frame ar hd : preserves f (updateHealthStatus ar hd).
Proof. unfold updateHealthStatus. frame'; apply showAlert_frame. Qed.

Lemma updateRecommendations_frame r : preserves f (updateRecommendations r).
Proof. unfold updateRecommendations. frame'. Qed.

Lemma updateModelMetrics_frame m : preserves f (updateModelMetrics m).
Proof. unfold updateModelMetrics. frame'. Qed.

Lemma updateLastUpdateTime_frame : preserves f updateLastUpdateTime.
Proof. unfold updateLastUpdateTime. frame'. Qed.

Lemma updateChart_frame hd : preserves f (updateChart hd).
Proof. unfold updateChart, push_data. frame'. Qed.

Lemma updateHealthData_resume_frame r : preserves f (updateHealthData_resume r).
Proof.
  unfold updateHealthData_resume, await_fetch, await_json.
  frame'; auto using showLoading_frame, updateConnectionStatus_frame, showAlert_frame,
    updateMetrics_frame, updateHealthStatus_frame, updateRecommendations_frame,
    updateModelMetrics_frame, updateLastUpdateTime_frame, updateChart_frame.
Qed.

Lemma retrainModel_resume_frame o r : preserves f (retrainModel_resume o r).
Proof.
  unfold retrainModel_resume, await_fetch, await_json.
  frame'; auto using showAlert_frame.
Qed.

Lemma triggerNormalScan_resume_frame o r : preserves f (triggerNormalScan_resume o r).
Proof.
  unfold triggerNormalScan_resume, await_fetch, await_json.
  frame'; auto using showAlert_frame.
Qed.

Lemma triggerEmergencyScan_resume_frame o r :
  preserves f (triggerEmergencyScan_resume o r).
Proof.
  unfold triggerEmergencyScan_resume, await_fetch, await_json.
  frame'; auto using showAlert_frame.
Qed.

Lemma stopMonitoring_resume_frame o r : preserves f (stopMonitoring_resume o r).
Proof.
  unfold stopMonitoring_resume, await_fetch, await_json.
  frame'; auto using showAlert_frame.
Qed.

Lemma startDataUpdates_frame : preserves f startDataUpdates.
Proof. unfold startDataUpdates. frame'; auto using updateConnectionStatus_frame. Qed.

Lemma stopDataUpdates_frame : preserves f stopDataUpdates.
Proof. unfold stopDataUpdates. frame'; auto using updateConnectionStatus_frame. Qed.

End Frames.

(** ** Methods that cannot throw *)

Lemma returns_mret {A} (a : A) : returns (mret a).
Proof. by intros s. Qed.

Lemma returns_gets {A} (g : state → A) : returns (gets g).
Proof. by intros s. Qed.

Lemma returns_modify g : returns (modify g).
Proof. by intros s. Qed.

Lemma returns_bind {A C} (m : M A) (k : A → M C) :
  returns m → (∀ a, returns (k a)) → returns (m ≫= k).
Proof.
  intros Hm Hk s. unfold mbind, M_bind. specialize (Hm s).
  destruct (m s) as [a s'|e s']; simpl in *; [apply Hk | done].
Qed.

Lemma returns_forEach {A} (l : list A) (k : A → M unit) :
  (∀ a, returns (k a)) → returns (forEach l k).
Proof.
  intros Hk. induction l as [|x l IH]; simpl.
  - apply returns_mret.
  - apply returns_bind; [apply Hk | by intros _].
Qed.

Ltac returns_step :=
  match goal with
  | |- returns (mret _) => apply returns_mret
  | |- returns (gets _) => apply returns_gets
  | |- returns (getElementById _) => apply returns_gets
  | |- returns (modify _) => apply returns_modify
  | |- returns (update_element _ _) => apply returns_modify
  | |- returns (setTimeout _ _) => intros ?; reflexivity
  | |- returns (_ ≫= _) => apply returns_bind; [| intros ?]
  | |- returns (forEach _ _) => apply returns_forEach; intros ?
  | |- returns (if ?b then _ else _) => destruct b
  | |- returns (match ?x with _ => _ end) => destruct x
  | |- returns (let _ := _ in _) => cbv zeta
  end.

Lemma showAlert_returns ty msg : returns (showAlert ty msg).
Proof. unfold showAlert. repeat returns_step. Qed.

Lemma updateMetrics_returns hd : returns (updateMetrics hd).
Proof. unfold updateMetrics. repeat returns_step. Qed.

Lemma updateHealthStatus_returns ar hd : returns (updateHealthStatus ar hd).
Proof. unfold updateHealthStatus. repeat returns_step; apply showAlert_returns. Qed.

Lemma updateRecommendations_returns r : returns (updateRecommendations r).
Proof. unfold updateRecommendations. repeat returns_step. Qed.

Lemma updateModelMetrics_returns m : returns (updateModelMetrics m).
Proof. unfold updateModelMetrics. repeat returns_step. Qed.

Lemma showLoading_returns b : returns (showLoading b).
Proof. unfold showLoading. repeat returns_step. Qed.

(** Running past a method that returns and keeps [f]. *)
Lemma bind_skip {A C B} (f : state → B) (m : M A) (k : A → M C) s :
  returns m → preserves f m →
  ∃ a s', (m ≫= k) s = k a s' ∧ f s' = f s.
Proof.
  intros Hr Hp. specialize (Hr s). specialize (Hp s).
  unfold mbind, M_bind. destruct (m s) as [a s'|e s']; [| done].
  by exists a, s'.
Qed.

(** ** The chart buffer *)

Lemma window_length {A} (l : list A) :
  length (window l) = (length l `min` maxPoints)%nat.
Proof. unfold window. rewrite length_drop. lia. Qed.

Lemma tail_drop {A} (l : list A) : tail l = drop 1 l.
Proof. by destruct l. Qed.

Lemma window_snoc {A} (l : list A) (x : A) :
  window (l ++ [x]) =
    if bool_decide (maxPoints < length (window l ++ [x]))%nat
    then tail (window l ++ [x]) else window l ++ [x].
Proof.
  rewrite length_app, window_length. unfold window, maxPoints.
  rewrite length_app. simpl. case_bool_decide as Hlen.
  - rewrite tail_drop, <- drop_app_le by lia.
    rewrite drop_drop. f_equal. lia.
  - replace (length l - 20)%nat with 0%nat by lia.
    replace (length l + 1 - 20)%nat with 0%nat by lia. done.
Qed.

Lemma window_evicts {A} (l : list A) (x : A) :
  (maxPoints ≤ length l)%nat → window (l ++ [x]) = tail (window l) ++ [x].
Proof.
  intros Hfull. rewrite window_snoc, length_app, window_length. simpl.
  rewrite bool_decide_true by lia.
  assert (length (window l) = maxPoints) as Hw by (rewrite window_length; lia).
  destruct (window l); [done | done].
Qed.

Lemma updateChart_appends (hs : list HealthSnapshot) (h : HealthSnapshot) (s : state) :
  chart s = Some (charted hs) →
  updateChart (Some h) s = Ret tt (set_chart (Some (charted (hs ++ [h]))) s).
Proof.
  intros Hc. destruct s; simpl in Hc; subst.
  unfold updateChart, push_data, gets, modify, mbind, M_bind, set_chart. simpl.
  rewrite !length_app, !window_length, !length_fmap. simpl.
  unfold charted. rewrite !fmap_app. simpl. rewrite !(window_snoc _ _).
  rewrite !length_app, !window_length, !length_fmap. simpl.
  case_bool_decide; reflexivity.
Qed.

Lemma in_flight_app (l k : list request) :
  in_flight (l ++ k) = (in_flight l + in_flight k)%nat.
Proof. induction l as [|[] l IH]; simpl; lia. Qed.

Lemma take_health_some (l : list request) (n : nat) :
  in_flight l = S n → ∃ l', take_health l = Some l' ∧ in_flight l' = n.
Proof.
  induction l as [|r l IH]; simpl; [done |].
  destruct r; intros H; first (exists l; split; [done | lia]);
    destruct (IH H) as (l' & -> & Hl'); by eexists.
Qed.

Lemma take_health_none (l : list request) :
  in_flight l = 0%nat → take_health l = None.
Proof.
  induction l as [|r l IH]; simpl; [done |].
  destruct r; intros H; [done | by rewrite IH ..].
Qed.

(** What a [try]/[catch]/[finally] leaves of [f] when neither the handler
    nor the [finally] block writes it. *)
Lemma try_catch_finally_frame {B} (f : state → B) body h fin s :
  (∀ e, preserves f (h e)) → preserves f fin →
  f (final (try_catch_finally body h fin s)) = f (final (body s)).
Proof.
  intros Hh Hf. unfold try_catch_finally.
  destruct (body s) as [a s1|e s1]; simpl.
  - apply Hf.
  - specialize (Hh e s1). destruct (h e s1) as [a s2|e2 s2]; simpl in *.
    + by rewrite Hf.
    + specialize (Hf s2). destruct (fin s2); simpl in *; congruence.
Qed.

(** The [finally] block always runs to its end. *)
Lemma try_catch_finally_final body h fin s :
  returns fin →
  ∃ s', final (try_catch_finally body h fin s) = final (fin s').
Proof.
  intros Hf. unfold try_catch_finally.
  destruct (body s) as [a s1|e s1]; simpl.
  - by exists s1.
  - destruct (h e s1) as [a s2|e2 s2]; simpl.
    + by exists s2.
    + exists s2. by destruct (fin s2).
Qed.

(** The monad laws used to run a method on a state. *)
Lemma bind_ret {A C} (a : A) (k : A → M C) s : (mret a ≫= k) s = k a s.
Proof. reflexivity. Qed.

Lemma bind_throw {A C} (e : error) (k : A → M C) s : (throw e ≫= k) s = Exn e s.
Proof. reflexivity. Qed.

Lemma bind_modify {C} g (k : unit → M C) s : (modify g ≫= k) s = k tt (g s).
Proof. reflexivity. Qed.

Lemma bind_update_element {C} id f (k : unit → M C) s :
  (update_element id f ≫= k) s = k tt (set_document (alter f id (document s)) s).
Proof. reflexivity. Qed.

Lemma bind_gets {A C} (g : state → A) (k : A → M C) s : (gets g ≫= k) s = k (g s) s.
Proof. reflexivity. Qed.

Lemma bind_assoc {A C D} (m : M A) (k : A → M C) (k' : C → M D) s :
  ((m ≫= k) ≫= k') s = (m ≫= λ a, k a ≫= k') s.
Proof. unfold mbind, M_bind. by destruct (m s). Qed.

Lemma bind_Ret {A C} (m : M A) (k : A → M C) s a s' :
  m s = Ret a s' → (m ≫= k) s = k a s'.
Proof. intros H. unfold mbind, M_bind. by rewrite H. Qed.

Lemma bind_Exn {A C} (m : M A) (k : A → M C) s e s' :
  m s = Exn e s' → (m ≫= k) s = Exn e s'.
Proof. intros H. unfold mbind, M_bind. by rewrite H. Qed.

(** Steps over the first method of a sequence when it returns and keeps [f]. *)
Ltac skip f :=
  match goal with
  | |- context [ (?m ≫= ?k) ?s ] =>
      let E := fresh "E" in let H := fresh "H" in
      destruct (bind_skip f m k s) as (? & ? & E & H);
      [| | rewrite E; clear E]
  end.

Lemma updateHealthData_resume_chart st snap h hs s :
  ok st = true → health_data snap = Some h → chart s = Some (charted hs) →
  chart (final (updateHealthData_resume (Response st (Json snap)) s))
    = Some (charted (hs ++ [h])).
Proof.
  intros Hok Hh Hc. unfold updateHealthData_resume.
  rewrite try_catch_finally_frame; first last.
  { frame. by apply showLoading_frame. }
  { intros e. frame; [by apply showAlert_frame | by apply updateConnectionStatus_frame]. }
  unfold await_fetch. rewrite bind_ret. cbn [fst snd]. rewrite Hok. cbn [negb].
  unfold await_json. rewrite bind_ret, Hh.
  skip chart; [apply updateMetrics_returns | by apply updateMetrics_frame |].
  skip chart; [apply updateHealthStatus_returns | by apply updateHealthStatus_frame |].
  skip chart; [apply updateRecommendations_returns | by apply updateRecommendations_frame |].
  skip chart; [apply updateModelMetrics_returns | by apply updateModelMetrics_frame |].
  erewrite bind_Ret; last (apply (updateChart_appends hs); congruence).
  match goal with
  | |- chart (final (?m ?s)) = _ => assert (preserves chart m) as ->
  end; [| done].
  frame; [by apply updateLastUpdateTime_frame | by apply updateConnectionStatus_frame].
Qed.

(** ** One snapshot fetch at a time *)

Lemma flag_tracks_fetch_flight s s' :
  flight s' = flight s → flag_tracks_fetch s' = flag_tracks_fetch s.
Proof. unfold flight, flag_tracks_fetch. by intros [= -> ->]. Qed.

Lemma flag_tracks_fetch_bound s :
  flag_tracks_fetch s = true → (in_flight (pending s) ≤ 1)%nat.
Proof.
  unfold flag_tracks_fetch. destruct (isUpdating s); intros H%Nat.eqb_eq; lia.
Qed.

Lemma updateHealthData_busy s :
  isUpdating s = true → updateHealthData s = Ret tt s.
Proof. intros H. unfold updateHealthData. by rewrite bind_gets, H. Qed.

Lemma updateHealthData_idle s :
  isUpdating s = false →
  ∃ s', updateHealthData s = Ret tt s'
        ∧ isUpdating s' = true
        ∧ pending s' = pending s ++ [HealthDataReq]
        ∧ sent s' = sent s ++ ["GET /api/health-data"]
        ∧ chart s' = chart s ∧ timers s' = timers s ∧ updateTimer s' = updateTimer s.
Proof.
  intros H. unfold updateHealthData. rewrite bind_gets, H, bind_modify.
  destruct (bind_skip (λ s, (isUpdating s, pending s, sent s, chart s, timers s,
                             updateTimer s))
              (showLoading true) (λ _, fetch "GET /api/health-data" HealthDataReq)
              (set_isUpdating true s))
    as ([] & s1 & -> & [= H1 H2 H3 H4 H5 H6]);
    [apply showLoading_returns | by apply showLoading_frame |].
  eexists. split; [reflexivity |]. simpl. by rewrite H1, H2, H3, H4, H5, H6.
Qed.

Lemma updateHealthData_flag s :
  flag_tracks_fetch s = true →
  flag_tracks_fetch (final (updateHealthData s)) = true
  ∧ isUpdating (final (updateHealthData s)) = true
  ∧ chart (final (updateHealthData s)) = chart s.
Proof.
  intros Hinv. destruct (isUpdating s) eqn:Hu.
  - by rewrite updateHealthData_busy.
  - destruct (updateHealthData_idle s Hu) as (s' & -> & Hu' & Hp & _ & Hc & _).
    simpl. split; [| done]. unfold flag_tracks_fetch in *.
    rewrite Hu in Hinv. apply Nat.eqb_eq in Hinv.
    rewrite Hu', Hp, in_flight_app, Hinv. done.
Qed.

Lemma updateHealthData_resume_clears r s :
  isUpdating (final (updateHealthData_resume r s)) = false.
Proof.
  unfold updateHealthData_resume.
  edestruct try_catch_finally_final as [s' ->].
  { repeat returns_step. apply showLoading_returns. }
  destruct (bind_skip (λ _, tt) (showLoading false)
              (λ _, modify (set_isUpdating false)) s') as (? & ? & -> & _);
    [apply showLoading_returns | done | done].
Qed.

Lemma updateHealthData_resume_flag r l s :
  in_flight l = 0%nat →
  flag_tracks_fetch (final (updateHealthData_resume r (set_pending l s))) = true.
Proof.
  intros Hl. unfold flag_tracks_fetch.
  rewrite updateHealthData_resume_clears.
  rewrite (updateHealthData_resume_frame pending) by done. simpl. by rewrite Hl.
Qed.

Lemma in_flight_delete (l : list request) (i : nat) (r : request) :
  l !! i = Some r → r ≠ HealthDataReq → in_flight (delete i l) = in_flight l.
Proof.
  revert i. induction l as [|x l IH]; intros [|i] Hi Hr; simpl in *; try done.
  - injection Hi as ->. by destruct r.
  - rewrite (IH i Hi Hr). done.
Qed.

Lemma onClick_flight b : preserves flight (onClick b).
Proof.
  destruct b; simpl;
    unfold retrainModel, triggerNormalScan, triggerEmergencyScan, stopMonitoring;
    repeat first
      [ frame_step
      | apply preserves_modify; intros; unfold flight; simpl;
        rewrite in_flight_app; simpl; f_equal; lia ].
Qed.

Lemma step_flag ev s :
  flag_tracks_fetch s = true → flag_tracks_fetch (step ev s) = true.
Proof.
  intros Hinv. destruct ev as [dt| |r|i r|b|hidden]; simpl.
  - done.
  - destruct (next_timer (timers s)) as [t|]; [| done].
    unfold fire. rewrite !bind_modify.
    match goal with |- context [run_callback _ ?s'] =>
      assert (flag_tracks_fetch s' = true) as Hinv' by done; revert Hinv';
      generalize s'
    end.
    intros s' Hinv'. destruct (cb t); simpl.
    + by apply updateHealthData_flag.
    + done.
    + done.
  - destruct (take_health (pending s)) as [l|] eqn:Ht; [| done].
    apply updateHealthData_resume_flag.
    unfold flag_tracks_fetch in Hinv.
    destruct (isUpdating s).
    + apply Nat.eqb_eq in Hinv.
      destruct (take_health_some _ _ Hinv) as (l' & Hl' & ?). congruence.
    + apply Nat.eqb_eq in Hinv. rewrite take_health_none in Ht; done.
  - destruct (pending s !! i) as [req|] eqn:Hi; [| done].
    destruct req; [done | ..];
      (erewrite flag_tracks_fetch_flight; [exact Hinv |]);
      [ rewrite (retrainModel_resume_frame flight) by done
      | rewrite (triggerNormalScan_resume_frame flight) by done
      | rewrite (triggerEmergencyScan_resume_frame flight) by done
      | rewrite (stopMonitoring_resume_frame flight) by done ];
      unfold flight; simpl; by erewrite in_flight_delete.
  - destruct (document s !! button_id b) as [e|]; [| done].
    destruct (el_disabled e); [done |].
    erewrite flag_tracks_fetch_flight; [exact Hinv | apply onClick_flight].
  - erewrite flag_tracks_fetch_flight; [exact Hinv |].
    destruct hidden; simpl;
      [by apply stopDataUpdates_frame | by apply startDataUpdates_frame].
Qed.

Lemma run_flag evs s :
  flag_tracks_fetch s = true → flag_tracks_fetch (run evs s) = true.
Proof.
  revert s. induction evs as [|ev evs IH]; intros s H; simpl; [done |].
  apply IH. by apply step_flag.
Qed.

Lemma poll_charted r h hs s :
  flag_tracks_fetch s = true → ok r.1 = true → health_data r.2 = Some h →
  chart s = Some (charted hs) →
  chart (poll r s) = Some (charted (hs ++ [h])) ∧ flag_tracks_fetch (poll r s) = true.
Proof.
  intros Hinv Hok Hh Hc. unfold poll.
  destruct (updateHealthData_flag s Hinv) as (Hinv1 & Hu1 & Hc1).
  split; [| by apply step_flag].
  set (s1 := final (updateHealthData s)) in *. simpl.
  unfold flag_tracks_fetch in Hinv1. rewrite Hu1 in Hinv1.
  apply Nat.eqb_eq in Hinv1.
  destruct (take_health_some _ _ Hinv1) as (l & -> & _).
  apply updateHealthData_resume_chart; [done | done |]. simpl. congruence.
Qed.

Lemma polls_charted rs hs hs0 s :
  flag_tracks_fetch s = true →
  Forall2 delivers rs hs →
  chart s = Some (charted hs0) →
  chart (polls rs s) = Some (charted (hs0 ++ hs)).
Proof.
  intros Hinv Hrs. revert s hs0 Hinv.
  induction Hrs as [|r h rs hs [Hok Hh] _ IH]; intros s hs0 Hinv Hc; simpl.
  - by rewrite app_nil_r.
  - destruct (poll_charted r h hs0 s Hinv Hok Hh Hc) as [Hc' Hinv'].
    rewrite (IH _ (hs0 ++ [h]) Hinv' Hc'). by rewrite <- app_assoc.
Qed.

(** ** The claims about the chart and the polling loop *)

(** C1. For every sequence of successful snapshot updates the chart holds
    the last min(n, 20) readings in arrival order, in its labels and in each
    of its four datasets, so never more than 20 points; and once 20
    readings have arrived, the next update drops exactly the oldest point
    and appends the new one. *)
Theorem chart_is_sliding_window (s : state) (rs : list (Z * Snapshot))
    (hs : list HealthSnapshot) :
  chart s = Some {| labels := []; datasets := [[]; []; []; []] |} →
  flag_tracks_fetch s = true →
  Forall2 delivers rs hs →
  chart (polls rs s) = Some (charted hs)
  ∧ length (labels (charted hs)) = (length hs `min` 20)%nat
  ∧ Forall (λ d, length d = (length hs `min` 20)%nat) (datasets (charted hs))
  ∧ (length (labels (charted hs)) ≤ 20)%nat
  ∧ ∀ r h, delivers r h → (20 ≤ length hs)%nat →
      chart (polls (rs ++ [r]) s)
        = Some {| labels := tail (labels (charted hs)) ++ [label_of h];
                  datasets :=
                    zip_with (λ d v, tail d ++ [v]) (datasets (charted hs))
                      [heart_rate h; blood_oxygen h; temperature h; health_score h] |}.
Proof.
  intros Hc Hinv Hrs.
  assert (∀ rs' hs', Forall2 delivers rs' hs' →
            chart (polls rs' s) = Some (charted hs')) as Hall.
  { intros rs' hs' H. by apply (polls_charted rs' hs' [] s). }
  split; [by apply Hall |].
  simpl. rewrite !window_length, !length_fmap. unfold maxPoints.
  split; [done |].
  split; [repeat constructor; by rewrite window_length, length_fmap |].
  split; [lia |].
  intros r h Hr Hfull.
  assert (Forall2 delivers (rs ++ [r]) (hs ++ [h])) as Hsnoc.
  { apply Forall2_app; [done |]. constructor; [done | constructor]. }
  rewrite (Hall _ _ Hsnoc).
  unfold charted. rewrite !fmap_app. simpl.
  rewrite !window_evicts by (rewrite length_fmap; unfold maxPoints; lia). done.
Qed.

Lemma chart_is_sliding_window_witness :
  chart (polls [(200, snapshot_of (Some (reading "09:00:00" 85)) (verdict false "Low"))]
           booted)
    = Some (charted [reading "09:00:00" 85]).
Proof.
  refine (proj1 (chart_is_sliding_window booted
           [(200, snapshot_of (Some (reading "09:00:00" 85)) (verdict false "Low"))]
           [reading "09:00:00" 85] _ _ _)).
  - vm_compute. reflexivity.
  - vm_compute. reflexivity.
  - constructor; [split; vm_compute; reflexivity | constructor].
Defined.

(** C2. At most one snapshot fetch is in flight: while [isUpdating] is
    true a call of the update operation, from the interval tick or from a
    manual trigger, returns at once and changes nothing, so no fetch is
    issued or queued; the flag is cleared when the fetch completes, whatever
    the reply; and along every run of the event loop at most one snapshot
    fetch is pending. *)
Theorem one_fetch_in_flight (s : state) (r : reply Snapshot) (evs : list event) :
  flag_tracks_fetch s = true →
  (isUpdating s = true → run_callback CbUpdateHealthData s = Ret tt s)
  ∧ isUpdating (final (updateHealthData_resume r s)) = false
  ∧ (in_flight (pending (run evs s)) ≤ 1)%nat.
Proof.
  intros Hinv. split; [| split].
  - apply updateHealthData_busy.
  - apply updateHealthData_resume_clears.
  - by apply flag_tracks_fetch_bound, run_flag.
Qed.

Lemma one_fetch_in_flight_witness :
  run_callback CbUpdateHealthData booted = Ret tt booted
  ∧ isUpdating (final (updateHealthData_resume (NetworkError (Lit "Failed to fetch")) booted))
      = false
  ∧ (in_flight (pending (run [TimerFires; Click NormalScanBtn; TimerFires] booted)) ≤ 1)%nat.
Proof.
  assert (flag_tracks_fetch booted = true) as Hinv by (vm_compute; reflexivity).
  assert (isUpdating booted = true) as Hbusy by (vm_compute; reflexivity).
  destruct (one_fetch_in_flight booted (NetworkError (Lit "Failed to fetch"))
              [TimerFires; Click NormalScanBtn; TimerFires] Hinv) as (H1 & H2 & H3).
  exact (conj (H1 Hbusy) (conj H2 H3)).
Defined.

(** ** Rendering the status *)

Lemma showAlert_present ty msg s :
  has s "alertSection" → has s "healthAlert" → has s "alertMessage" →
  showAlert ty msg s =
    Ret tt
      (set_timers (S (nextTimer s))
         (timers s ++ [{| tid := nextTimer s; due := now s + 5000;
                          period := None; cb := CbHideAlert |}])
         (set_document
            (alter (with_display "block") "alertSection"
               (alter (with_content (Text msg)) "alertMessage"
                  (alter (with_className
                            ["alert"; "alert-" +:+ ty; "alert-dismissible"; "fade"; "show"])
                     "healthAlert" (document s)))) s)).
Proof.
  intros [e1 H1] [e2 H2] [e3 H3]. unfold showAlert, getElementById.
  rewrite !bind_gets, H1, H2, H3. reflexivity.
Qed.

(** Runs the straight-line prefix of a method on a state. *)
Ltac run_step :=
  first [ rewrite bind_assoc | rewrite bind_gets | rewrite bind_modify
        | rewrite bind_update_element
        | rewrite bind_ret | rewrite bind_throw ].
Ltac run_method := repeat run_step; cbv beta.

(** Reduces the projections of a state built by the setters. *)
Ltac state_simpl :=
  cbn [isUpdating chart lastUpdateTime emergencyMode updateTimer document now
       nextTimer timers pending sent
       set_isUpdating set_chart set_lastUpdateTime set_emergencyMode
       set_updateTimer set_document set_now set_timers set_pending set_sent].

Ltac state_simpl_in H :=
  cbn [isUpdating chart lastUpdateTime emergencyMode updateTimer document now
       nextTimer timers pending sent
       set_isUpdating set_chart set_lastUpdateTime set_emergencyMode
       set_updateTimer set_document set_now set_timers set_pending set_sent] in H.

(** Proves [preserves f m] when [f] looks elements up that [m] does not
    write. *)
Ltac frame_lookup :=
  repeat first
    [ frame_step
    | apply preserves_modify; intros; cbv beta; unfold status_view; state_simpl;
      rewrite ?lookup_alter_ne by done; reflexivity ].

Ltac has_solve :=
  unfold has in *; state_simpl; rewrite ?lookup_alter_is_Some; assumption.

(** Steps over a [showAlert] whose three elements are in the document. *)
Ltac run_alert :=
  erewrite bind_Ret; [| apply showAlert_present; has_solve].

(** Replaces the rest of a method, which keeps [status_view], by its
    starting state. *)
Ltac forget_rest H :=
  match goal with
  | |- context [final (?m ?s0)] =>
      assert (status_view (final (m s0)) = status_view s0) as H;
      [ generalize s0; change (preserves status_view m); frame_lookup
      | revert H; generalize (final (m s0)); intros ? H;
        unfold status_view in H; state_simpl_in H;
        injection H as Hemergency Htimers HnextTimer HhealthStatus HstatusIndicator
          HalertSection HhealthAlert HalertMessage ]
  end.

Ltac lookup_simpl :=
  repeat first [ rewrite lookup_alter_ne by done | rewrite lookup_alter_eq ].

(** The first part of [updateHealthStatus] for a verdict that is not the
    waiting sentinel, up to the choice of the alert. *)
Ltac run_status H1 H2 Hst :=
  unfold updateHealthStatus, getElementById; run_method; rewrite H1, H2;
  cbn [present andb]; rewrite bool_decide_false by exact Hst; cbv zeta.

(** C7. For a verdict that is not the waiting sentinel: an anomaly of High
    risk raises a danger alert and sets [emergencyMode]; an anomaly of
    Medium risk raises a warning alert; no anomaly clears [emergencyMode]
    and shows the normal indicator. *)
Theorem anomaly_raises_matching_alert (s : state) (ar : AnomalyResult)
    (hd : option HealthSnapshot) :
  status ar ≠ Some "Waiting for fingerprint scan..." →
  has s "healthStatus" → has s "statusIndicator" →
  has s "alertSection" → has s "healthAlert" → has s "alertMessage" →
  let s' := final (updateHealthStatus ar hd s) in
  (is_anomaly ar = true → risk_level ar = "High" →
     alert_shows s' "danger"
       (Lit "High risk health anomaly detected! Please monitor your symptoms closely.")
     ∧ emergencyMode s' = true)
  ∧ (is_anomaly ar = true → risk_level ar = "Medium" →
     alert_shows s' "warning"
       (Lit "Moderate health anomaly detected. Keep an eye on your metrics.")
     ∧ emergencyMode s' = true)
  ∧ (is_anomaly ar = false →
     emergencyMode s' = false
     ∧ el_content <$> document s' !! "statusIndicator"
         = Some (Html (Lit (icon "fas fa-circle text-success normal")))
     ∧ el_content <$> document s' !! "healthStatus" = Some (Text (Lit "Normal"))).
Proof.
  intros Hst [e1 H1] [e2 H2] Ha1 Ha2 Ha3 s'. subst s'.
  split; [| split].
  - intros Han Hr. run_status H1 H2 Hst. rewrite Han, Hr. run_method.
    rewrite bool_decide_true by done. cbv iota. run_alert. run_method. cbv iota.
    forget_rest Hv. split; [| done]. unfold alert_shows.
    rewrite HhealthAlert, HalertMessage, HalertSection. lookup_simpl.
    destruct Ha1 as [? ->], Ha2 as [? ->], Ha3 as [? ->]. done.
  - intros Han Hr. run_status H1 H2 Hst. rewrite Han, Hr. run_method.
    rewrite bool_decide_false by done. rewrite bool_decide_true by done. cbv iota.
    run_alert. run_method. cbv iota.
    forget_rest Hv. split; [| done]. unfold alert_shows.
    rewrite HhealthAlert, HalertMessage, HalertSection. lookup_simpl.
    destruct Ha1 as [? ->], Ha2 as [? ->], Ha3 as [? ->]. done.
  - intros Han. run_status H1 H2 Hst. rewrite Han. run_method. cbv iota.
    forget_rest Hv. split; [done |].
    rewrite HstatusIndicator, HhealthStatus. lookup_simpl. by rewrite H1, H2.
Qed.

Lemma anomaly_raises_matching_alert_witness :
  emergencyMode
    (final (updateHealthStatus (verdict true "High") (Some (reading "09:00:00" 41)) booted))
  = true.
Proof.
  refine (proj2 (proj1 (anomaly_raises_matching_alert booted (verdict true "High")
                          (Some (reading "09:00:00" 41)) _ _ _ _ _ _) _ _));
    first [ discriminate | by (vm_compute; eexists) | reflexivity ].
Defined.

(** C10. An anomaly whose risk level is neither High nor Medium, Low in
    particular, sets [emergencyMode] and shows the anomaly text with the
    emergency indicator, but raises no alert: the alert slot and the timer
    table stay as they were. *)
Theorem low_risk_anomaly_raises_no_alert (s : state) (ar : AnomalyResult)
    (hd : option HealthSnapshot) :
  status ar ≠ Some "Waiting for fingerprint scan..." →
  has s "healthStatus" → has s "statusIndicator" →
  is_anomaly ar = true → risk_level ar ≠ "High" → risk_level ar ≠ "Medium" →
  let s' := final (updateHealthStatus ar hd s) in
  emergencyMode s' = true
  ∧ el_content <$> document s' !! "healthStatus"
      = Some (Text (Lit ("Anomaly Detected (" +:+ risk_level ar +:+ " Risk)")))
  ∧ el_content <$> document s' !! "statusIndicator"
      = Some (Html (Lit (icon "fas fa-circle text-danger emergency")))
  ∧ timers s' = timers s
  ∧ document s' !! "alertSection" = document s !! "alertSection"
  ∧ document s' !! "healthAlert" = document s !! "healthAlert"
  ∧ document s' !! "alertMessage" = document s !! "alertMessage".
Proof.
  intros Hst [e1 H1] [e2 H2] Han Hhigh Hmedium s'. subst s'.
  run_status H1 H2 Hst. rewrite Han. run_method.
  rewrite !bool_decide_false by done. cbv iota. run_method. cbv iota.
  forget_rest Hv. split; [done |].
  rewrite HhealthStatus, HstatusIndicator, HalertSection, HhealthAlert, HalertMessage.
  lookup_simpl. by rewrite H1, H2.
Qed.

Lemma low_risk_anomaly_raises_no_alert_witness :
  let s' := final (updateHealthStatus (verdict true "Low") (Some (reading "09:00:00" 41))
                     booted) in
  emergencyMode s' = true
  ∧ el_content <$> document s' !! "healthStatus"
      = Some (Text (Lit "Anomaly Detected (Low Risk)"))
  ∧ timers s' = timers booted.
Proof.
  destruct (low_risk_anomaly_raises_no_alert booted (verdict true "Low")
              (Some (reading "09:00:00" 41)))
    as (H1 & H2 & _ & H3 & _);
    [ discriminate | by (vm_compute; eexists) | by (vm_compute; eexists)
    | reflexivity | discriminate | discriminate | ].
  exact (conj H1 (conj H2 H3)).
Defined.

(** ** The score bar *)

Lemma scoreBand_success (q : Q) : (inject_Z 80 <= q)%Q → scoreBand q = "bg-success".
Proof. intros H. unfold scoreBand. by rewrite (proj2 (Qle_bool_iff _ _) H). Qed.

Lemma Qle_bool_false (x y : Q) : (y < x)%Q → Qle_bool x y = false.
Proof.
  intros H. destruct (Qle_bool x y) eqn:E; [| done].
  apply Qle_bool_iff in E. by apply Qlt_not_le in H.
Qed.

Lemma scoreBand_warning (q : Q) :
  (inject_Z 60 <= q)%Q → (q < inject_Z 80)%Q → scoreBand q = "bg-warning".
Proof.
  intros Hlo Hhi. unfold scoreBand.
  by rewrite (Qle_bool_false _ _ Hhi), (proj2 (Qle_bool_iff _ _) Hlo).
Qed.

Lemma scoreBand_danger (q : Q) : (q < inject_Z 60)%Q → scoreBand q = "bg-danger".
Proof.
  intros Hhi. unfold scoreBand.
  rewrite (Qle_bool_false _ _ Hhi), Qle_bool_false; [done |].
  eapply Qlt_trans; [exact Hhi | done].
Qed.

Lemma classList_add_scoreBand (q : Q) (e : element) :
  el_className (classList_add (scoreBand q) (with_className ["progress-bar"] e))
    = ["progress-bar"; scoreBand q].
Proof.
  unfold scoreBand.
  destruct (Qle_bool (inject_Z 80) q); [| destruct (Qle_bool (inject_Z 60) q)];
    reflexivity.
Qed.

(** C6. The colour of the score bar is a function of the score alone, with
    half-open bands: [80,100] success, [60,80) warning, [0,60) danger; 80 is
    success, 79 and 60 are warning, 59 is danger. *)
Theorem score_banding (s : state) (ar : AnomalyResult) (h : HealthSnapshot) :
  status ar ≠ Some "Waiting for fingerprint scan..." →
  has s "healthScore" → has s "healthScoreBar" →
  let q := health_score h in
  el_className <$> document (final (updateHealthStatus ar (Some h) s)) !! "healthScoreBar"
    = Some ["progress-bar"; scoreBand q]
  ∧ ((80 <= q)%Q → (q <= 100)%Q → scoreBand q = "bg-success")
  ∧ ((60 <= q)%Q → (q < 80)%Q → scoreBand q = "bg-warning")
  ∧ ((0 <= q)%Q → (q < 60)%Q → scoreBand q = "bg-danger")
  ∧ scoreBand 80 = "bg-success" ∧ scoreBand 79 = "bg-warning"
  ∧ scoreBand 60 = "bg-warning" ∧ scoreBand 59 = "bg-danger".
Proof.
  intros Hst [x1 Hx1] [x2 Hx2] q. subst q.
  split; [| by auto 10 using scoreBand_success, scoreBand_warning, scoreBand_danger].
  set (f := λ s : state, (document s !! "healthScore", document s !! "healthScoreBar")).
  assert (∀ ty msg, preserves f (showAlert ty msg)) as Halert.
  { intros. unfold showAlert, f. frame_lookup. }
  assert (∀ s1, f s1 = f s →
    el_className <$> document (final
      ((update_element "healthScore" (with_content (Text (OfNum (health_score h))));;
        update_element "healthScoreBar"
          (with_width (Cat (OfNum (health_score h)) (Lit "%")));;
        update_element "healthScoreBar" (with_className ["progress-bar"]);;
        update_element "healthScoreBar" (classList_add (scoreBand (health_score h)))) s1))
      !! "healthScoreBar" = Some ["progress-bar"; scoreBand (health_score h)]) as Hbar.
  { intros s1 [= _ Hs1]. run_method.
    change (final (update_element ?i ?g ?s0)) with (set_document (alter g i (document s0)) s0).
    state_simpl. lookup_simpl. rewrite Hs1, Hx2. cbn [fmap option_fmap option_map].
    by rewrite classList_add_scoreBand. }
  unfold updateHealthStatus, getElementById. run_method. rewrite Hx1, Hx2.
  destruct (document s !! "healthStatus") as [e1|],
    (document s !! "statusIndicator") as [e2|];
    cbn [present andb]; run_method; cbv iota; try (by apply Hbar).
  rewrite bool_decide_false by exact Hst. cbv zeta.
  destruct (is_anomaly ar); run_method.
  - repeat case_bool_decide; run_method; cbv iota.
    + skip f; [apply showAlert_returns | apply Halert |].
      run_method. cbv iota. apply Hbar. etrans; [eassumption |].
      unfold f. state_simpl. by lookup_simpl.
    + skip f; [apply showAlert_returns | apply Halert |].
      run_method. cbv iota. apply Hbar. etrans; [eassumption |].
      unfold f. state_simpl. by lookup_simpl.
    + apply Hbar. unfold f. state_simpl. by lookup_simpl.
  - cbv iota. apply Hbar. unfold f. state_simpl. by lookup_simpl.
Qed.

Lemma score_banding_witness :
  el_className <$>
    document (final (updateHealthStatus (verdict false "Low") (Some (reading "09:00:00" 79))
                       booted)) !! "healthScoreBar"
  = Some ["progress-bar"; scoreBand 79].
Proof.
  refine (proj1 (score_banding booted (verdict false "Low") (reading "09:00:00" 79) _ _ _));
    [ discriminate | vm_compute; eexists; reflexivity | vm_compute; eexists; reflexivity ].
Defined.

(** ** Failed requests *)


Lemma await_failed {A C} (r : reply A) (k : A → M C) s :
  failed r = true →
  (await_fetch r ≫= λ response,
     if negb (ok response.1) then throw (httpError response.1)
     else await_json response.2 ≫= k) s = Exn (failure r) s.
Proof.
  destruct r as [msg|st [msg|a]]; simpl; intros Hf; unfold await_fetch.
  - by rewrite bind_throw.
  - rewrite bind_ret. cbn [fst snd]. by destruct (ok st).
  - rewrite bind_ret. cbn [fst snd]. by rewrite Hf.
Qed.




Lemma present_alter (g : element → element) (m : gmap string element) (i j : string) :
  present (alter g i m !! j) = present (m !! j).
Proof.
  destruct (decide (i = j)) as [->|Hne].
  - rewrite lookup_alter_eq. by destruct (m !! j).
  - by rewrite lookup_alter_ne.
Qed.

(** The [finally] block runs on a state that agrees on [f] with the one
    the [try] started from, when neither the body nor the handler writes [f]. *)
Lemma try_catch_finally_final_frame {B} (f : state → B) body h fin s :
  preserves f body → (∀ e, preserves f (h e)) →
  ∃ s2, f s2 = f s ∧
        final (try_catch_finally body h fin s) = final (fin s2).
Proof.
  intros Hb Hh. unfold try_catch_finally. specialize (Hb s).
  destruct (body s) as [a s1|e s1]; simpl in *.
  - by exists s1.
  - specialize (Hh e s1). destruct (h e s1) as [a s2|e2 s2]; simpl in *.
    + exists s2. split; [congruence | done].
    + exists s2. split; [congruence | by destruct (fin s2)].
Qed.

Ltac frame_present :=
  repeat first
    [ frame_step
    | apply preserves_modify; intros; cbv beta; state_simpl;
      rewrite ?present_alter; reflexivity ].

Lemma finally_reenables (id : string) (o : content) body h s :
  preserves (λ s, present (document s !! id)) body →
  (∀ e, preserves (λ s, present (document s !! id)) (h e)) →
  has s id →
  el_disabled <$>
    document (final (try_catch_finally body h
                       (update_element id (with_disabled false);;
                        update_element id (with_content o)) s)) !! id
  = Some false.
Proof.
  intros Hb Hh [e He].
  destruct (try_catch_finally_final_frame _ body h
              (update_element id (with_disabled false);;
               update_element id (with_content o)) s Hb Hh) as (s2 & Hs2 & ->).
  cbv beta in Hs2. rewrite He in Hs2. run_method.
  change (final (update_element ?i ?g ?s0))
    with (set_document (alter g i (document s0)) s0).
  state_simpl. lookup_simpl. by destruct (document s2 !! id).
Qed.

Lemma resume_of_reenables (b : button) (o : content) (r : reply text) (s : state) :
  has s (button_id b) →
  el_disabled <$> document (final (resume_of b o r s)) !! button_id b = Some false.
Proof.
  intros Hb.
  assert (∀ ty msg, preserves (λ s, present (document s !! button_id b)) (showAlert ty msg))
    as Halert by (intros; unfold showAlert; frame_present).
  destruct b; simpl in *;
    apply finally_reenables; try done; try (intros; apply Halert);
    unfold await_fetch, await_json, getElementById; frame_present; apply Halert.
Qed.

Lemma resume_of_failed (s : state) (b : button) (o : content) (r : reply text)
    (e : element) :
  has s "alertSection" → has s "healthAlert" → has s "alertMessage" →
  document s !! button_id b = Some e →
  failed r = true →
  let s' := final (resume_of b o r s) in
  resume_of b o r s = Ret tt s'
  ∧ alert_shows s' "danger" (Cat (Lit (failure_text b)) (message (failure r)))
  ∧ timers s' = timers s ++ [hide_timer s]
  ∧ document s' !! button_id b = Some (with_content o (with_disabled false e))
  ∧ (∀ id, id ≠ button_id b → id ≠ "alertSection" → id ≠ "healthAlert" →
           id ≠ "alertMessage" → document s' !! id = document s !! id)
  ∧ (emergencyMode s', isUpdating s', chart s', pending s', sent s', updateTimer s')
      = (emergencyMode s, isUpdating s, chart s, pending s, sent s, updateTimer s).
Proof.
  intros Ha1 Ha2 Ha3 He Hf s'. subst s'.
  destruct b; cbn [resume_of button_id failure_text] in He |- *;
    unfold retrainModel_resume, triggerNormalScan_resume,
      triggerEmergencyScan_resume, stopMonitoring_resume, try_catch_finally;
    rewrite await_failed by done;
    rewrite showAlert_present by has_solve;
    run_method;
    change (update_element ?i ?g ?s0)
      with (Ret tt (set_document (alter g i (document s0)) s0));
    cbn [final]; state_simpl;
    (split; [done |]);
    (split; [unfold alert_shows; state_simpl; lookup_simpl;
             destruct Ha1 as [? ->], Ha2 as [? ->], Ha3 as [? ->]; done |]);
    (split; [done |]);
    (split; [lookup_simpl; by rewrite He |]);
    (split; [intros id ? ? ? ?; by rewrite !lookup_alter_ne by done |]);
    done.
Qed.

Lemma onClick_enabled (s : state) (b : button) (e : element) :
  document s !! button_id b = Some e →
  onClick b s =
    Ret tt
      (set_pending (pending s ++ [request_of b (el_content e)])
         (set_sent (sent s ++ [url_of b])
            (set_document
               (alter (with_content (spinner (busy_label b))) (button_id b)
                  (alter (with_disabled true) (button_id b) (document s))) s))).
Proof.
  intros He.
  destruct b; cbn [onClick button_id request_of url_of busy_label] in He |- *;
    unfold retrainModel, triggerNormalScan, triggerEmergencyScan, stopMonitoring,
      getElementById;
    rewrite bind_gets, He; by run_method.
Qed.

Lemma step_ActionReply (s : state) (b : button) (o : content) (r : reply text) :
  step (ActionReply (length (pending s)) r)
       (set_pending (pending s ++ [request_of b o]) s)
    = final (resume_of b o r s).
Proof.
  cbn [step]. state_simpl. rewrite list_lookup_middle by done.
  rewrite (delete_middle (pending s) []), app_nil_r.
  destruct s, b; reflexivity.
Qed.

(** C8. A click on an enabled scan, stop or retrain button followed by a
    failed reply leaves the page as it was before the click, the layout
    (scan-selection section, stop control) and the button included, except
    for the alert slot, which shows a danger alert with the error; no
    refresh is scheduled and the fields of the dashboard are untouched.
    The same holds when the reply arrives after other events.  Whatever
    the reply, success included, the button ends enabled. *)
Theorem failed_transition_keeps_layout (s : state) (b : button) (r : reply text)
    (e : element) :
  has s "alertSection" → has s "healthAlert" → has s "alertMessage" →
  document s !! button_id b = Some e → el_disabled e = false →
  let s' := step (ActionReply (length (pending s)) r) (step (Click b) s) in
  (∀ s1 o, has s1 (button_id b) →
     el_disabled <$> document (final (resume_of b o r s1)) !! button_id b = Some false)
  ∧ el_disabled <$> document s' !! button_id b = Some false
  ∧ (failed r = true →
     alert_shows s' "danger" (Cat (Lit (failure_text b)) (message (failure r)))
     ∧ (∀ id, id ≠ "alertSection" → id ≠ "healthAlert" → id ≠ "alertMessage" →
              document s' !! id = document s !! id)
     ∧ el_display <$> document s' !! "fingerprintSection"
         = el_display <$> document s !! "fingerprintSection"
     ∧ el_display <$> document s' !! "stopBtn" = el_display <$> document s !! "stopBtn"
     ∧ timers s' = timers s ++ [hide_timer s]
     ∧ pending s' = pending s
     ∧ (emergencyMode s', isUpdating s', chart s', updateTimer s')
         = (emergencyMode s, isUpdating s, chart s, updateTimer s)).
Proof.
  intros Ha1 Ha2 Ha3 He Hen s'.
  split; [intros; by apply resume_of_reenables |].
  assert (s' = final (resume_of b (el_content e) r
                        (set_sent (sent s ++ [url_of b])
                           (set_document
                              (alter (with_content (spinner (busy_label b))) (button_id b)
                                 (alter (with_disabled true) (button_id b) (document s)))
                              s)))) as ->.
  { subst s'. cbn [step]. rewrite He, Hen, (onClick_enabled s b e He).
    cbn [final]. apply (step_ActionReply (set_sent _ (set_document _ s))). }
  match goal with |- context [resume_of b _ r ?s0] => set (s1 := s0) end.
  assert (document s1 !! button_id b
          = Some (with_content (spinner (busy_label b)) (with_disabled true e))) as He1.
  { subst s1. state_simpl. lookup_simpl. by rewrite He. }
  split; [apply resume_of_reenables; by eexists |].
  intros Hf.
  destruct (resume_of_failed s1 b (el_content e) r _ ltac:(subst s1; has_solve)
              ltac:(subst s1; has_solve) ltac:(subst s1; has_solve) He1 Hf)
    as (_ & Halert & Htimers & Hbutton & Hrest & [= Hem Hup Hch Hpe _ Hti]).
  assert (∀ id, id ≠ "alertSection" → id ≠ "healthAlert" → id ≠ "alertMessage" →
            document (final (resume_of b (el_content e) r s1)) !! id = document s !! id)
    as Hsame.
  { intros id H1 H2 H3. destruct (decide (id = button_id b)) as [->|Hne].
    - rewrite Hbutton, He. f_equal. destruct e. simpl in Hen. by subst.
    - rewrite Hrest by done. subst s1. state_simpl. by rewrite !lookup_alter_ne by done. }
  split; [done |]. split; [done |].
  split; [by rewrite Hsame |]. split; [by rewrite Hsame |].
  by rewrite Htimers, Hem, Hup, Hch, Hpe, Hti.
Qed.

Lemma failed_transition_keeps_layout_witness :
  let s' := step (ActionReply 0 (NetworkError (Lit "Failed to fetch")))
              (step (Click NormalScanBtn) settled) in
  el_disabled <$> document s' !! "normalScanBtn" = Some false
  ∧ alert_shows s' "danger"
      (Cat (Lit "Failed to start normal monitoring: ") (Lit "Failed to fetch"))
  ∧ document s' !! "normalScanBtn" = document settled !! "normalScanBtn"
  ∧ el_display <$> document s' !! "stopBtn" = el_display <$> document settled !! "stopBtn".
Proof.
  destruct (failed_transition_keeps_layout settled NormalScanBtn
              (NetworkError (Lit "Failed to fetch"))
              (node normalScanBtn_text ["btn"; "btn-success"; "btn-sm"; "w-100"; "mb-2"] ""))
    as (_ & H1 & H2);
    [ vm_compute; eexists; reflexivity | vm_compute; eexists; reflexivity
    | vm_compute; eexists; reflexivity | vm_compute; reflexivity | reflexivity | ].
  destruct (H2 eq_refl) as (H3 & H4 & _ & H5 & _).
  exact (conj H1 (conj H3 (conj (H4 "normalScanBtn" ltac:(discriminate)
                                   ltac:(discriminate) ltac:(discriminate)) H5))).
Defined.

(** ** Pausing and resuming the loop *)

Lemma bind_clearInterval {C} id (k : unit → M C) s :
  (clearInterval id ≫= k) s
    = k tt (set_timers (nextTimer s) (filter (λ t, tid t ≠ id) (timers s)) s).
Proof. reflexivity. Qed.

Lemma clear_owned_interval (l : list timer) (n next : nat) :
  forallb (λ t, (0 <? tid t)%nat && (tid t <? next)%nat
                && (negb (is_interval t) || bool_decide (Some n = Some (tid t)))) l = true →
  filter (λ t, is_interval t = true) (filter (λ t, tid t ≠ n) l) = [].
Proof.
  induction l as [|t l IH]; [done |]. cbn [forallb].
  intros [[_ Ht]%andb_prop Hl]%andb_prop. specialize (IH Hl).
  rewrite filter_cons. destruct (decide (tid t ≠ n)) as [Hid|Hid]; [| done].
  - rewrite filter_cons. destruct (decide (is_interval t = true)) as [Hint|Hint]; [| done].
    rewrite Hint in Ht. simpl in Ht. apply bool_decide_eq_true in Ht. congruence.
Qed.

Lemma no_owner_no_interval (l : list timer) (next : nat) :
  forallb (λ t, (0 <? tid t)%nat && (tid t <? next)%nat
                && (negb (is_interval t) || bool_decide (None = Some (tid t)))) l = true →
  filter (λ t, is_interval t = true) l = [].
Proof.
  induction l as [|t l IH]; [done |]. cbn [forallb].
  intros [[_ Ht]%andb_prop Hl]%andb_prop. specialize (IH Hl).
  rewrite filter_cons. destruct (decide (is_interval t = true)) as [Hint|Hint]; [| done].
  rewrite Hint in Ht. by simpl in Ht.
Qed.

(** C5, as the code has it.  When the page is hidden the loop is paused:
    the interval is cleared and [updateTimer] is null.  When the page is
    visible again the loop is resumed by arming a new interval, due one
    full period later; no fetch is issued by the pause or by the resume
    itself. *)
Theorem visibility_pauses_and_rearms (s h : state) :
  intervals_owned s = true →
  filter (λ t, is_interval t = true) (timers h) = [] → updateTimer h = None →
  let hidden := final (onVisibilityChange true s) in
  let visible := final (onVisibilityChange false h) in
  filter (λ t, is_interval t = true) (timers hidden) = []
  ∧ updateTimer hidden = None
  ∧ sent hidden = sent s ∧ pending hidden = pending s
  ∧ filter (λ t, is_interval t = true) (timers visible) = [poll_timer h]
  ∧ updateTimer visible = Some (nextTimer h)
  ∧ sent visible = sent h ∧ pending visible = pending h.
Proof.
  intros [Hu Hown]%andb_prop Hh Hth hidden visible.
  apply bool_decide_eq_true in Hu.
  set (f := λ s : state, (timers s, updateTimer s, sent s, pending s)).
  assert (∀ b, preserves f (updateConnectionStatus b)) as Hconn
    by (intros; by apply updateConnectionStatus_frame).
  assert (f hidden = (filter (λ t, tid t ≠ default 0%nat (updateTimer s)) (timers s),
                      None, sent s, pending s)
          ∧ filter (λ t, is_interval t = true)
              (filter (λ t, tid t ≠ default 0%nat (updateTimer s)) (timers s)) = [])
    as [[= -> -> -> ->] Hnone].
  { subst hidden. cbn [onVisibilityChange]. unfold stopDataUpdates.
    rewrite bind_gets.
    destruct (updateTimer s) as [[|n]|] eqn:Hs; [done | |]; cbn [truthy_id default].
    - rewrite bind_assoc, bind_clearInterval, bind_modify, Hconn.
      split; [done |]. by eapply clear_owned_interval.
    - rewrite bind_ret, Hconn. unfold f. rewrite Hs.
      assert (filter (λ t, is_interval t = true) (timers s) = []) as Hno
        by by eapply no_owner_no_interval.
      assert (filter (λ t : timer, tid t ≠ 0%nat) (timers s) = timers s) as ->; [| done].
      clear Hno. induction (timers s) as [|t l IH]; [done |].
      cbn [forallb] in Hown.
      apply andb_prop in Hown as [[[Hpos _]%andb_prop _]%andb_prop Hl].
      rewrite filter_cons, (IH Hl). apply Nat.ltb_lt in Hpos.
      destruct (decide (tid t ≠ 0%nat)); [done | lia]. }
  assert (f visible = (timers h ++ [poll_timer h], Some (nextTimer h), sent h, pending h))
    as [= -> -> -> ->].
  { subst visible. cbn [onVisibilityChange]. unfold startDataUpdates.
    rewrite bind_gets, Hth. cbn [truthy_id]. rewrite bind_ret.
    erewrite bind_Ret by reflexivity. rewrite bind_modify, Hconn. done. }
  repeat split; try done.
  rewrite filter_app, Hh. done.
Qed.

Lemma visibility_pauses_and_rearms_witness :
  filter (λ t, is_interval t = true) (timers foregrounded) = [poll_timer backgrounded]
  ∧ sent foregrounded = sent backgrounded.
Proof.
  destruct (visibility_pauses_and_rearms settled backgrounded)
    as (_ & _ & _ & _ & H1 & _ & H2 & _);
    [ vm_compute; reflexivity | vm_compute; reflexivity | vm_compute; reflexivity | ].
  exact (conj H1 H2).
Defined.

(** C5, as the specification states it, fails: after the page has been
    hidden and shown again, the resume has issued no fetch, and none is
    issued until the interval fires a full period later. *)
Lemma resume_issues_no_fetch :
  length (sent foregrounded) ≠ S (length (sent backgrounded))
  ∧ sent foregrounded = sent backgrounded
  ∧ sent (run_until 10 (now foregrounded + 4999) foregrounded) = sent backgrounded
  ∧ sent (run_until 10 (now foregrounded + 5000) foregrounded)
      = sent backgrounded ++ ["GET /api/health-data"].
Proof. vm_compute. repeat split; discriminate. Qed.

(** ** The waiting snapshot and the alert timer *)

Lemma updateChart_null (s : state) :
  is_Some (chart s) →
  updateChart None s
    = Exn (TypeError (Lit "Cannot read properties of null (reading 'timestamp')")) s.
Proof. intros [c Hc]. unfold updateChart. by rewrite bind_gets, Hc. Qed.

(** C3 fails on the code.  With the chart on the page, a snapshot whose
    [health_data] is null does put the placeholders in the six tiles and
    the neutral indicator, and it adds no point to the chart; but
    [updateChart] then reads [timestamp] of null, so the update ends in the
    [catch] block: an error alert and Disconnected are shown.  The stale
    score of the reading before stays on the page. *)
Theorem waiting_snapshot_ends_in_error :
  Forall (λ id, el_content <$> document back_to_waiting !! id = Some (Text (Lit "--")))
    ["heartRate"; "bloodOxygen"; "temperature"; "activityLevel"; "sleepQuality";
     "stressLevel"]
  ∧ el_content <$> document back_to_waiting !! "statusIndicator"
      = Some (Html (Lit (icon "fas fa-circle text-secondary")))
  ∧ chart back_to_waiting = chart settled
  ∧ alert_shows back_to_waiting "error"
      (Cat (Lit "Failed to update health data: ")
           (Lit "Cannot read properties of null (reading 'timestamp')"))
  ∧ el_content <$> document back_to_waiting !! "connectionStatus"
      = Some (Text (Lit "Disconnected"))
  ∧ el_content <$> document back_to_waiting !! "healthScore" = Some (Text (OfNum 85))
  ∧ el_className <$> document back_to_waiting !! "healthScoreBar"
      = Some ["progress-bar"; "bg-success"].
Proof.
  split; [repeat constructor |]; vm_compute; repeat split; reflexivity.
Qed.

(** C4 fails on the code.  [showAlert] arms a new timer and leaves the old
    one armed: an alert raised 3000 ms after another is hidden 2000 ms
    later by the first alert's timer, while its own timer is still due
    3000 ms after that. *)
Theorem second_alert_is_hidden_early :
  timers second_alert
    = [{| tid := 1; due := 5000; period := None; cb := CbHideAlert |};
       {| tid := 2; due := 8000; period := None; cb := CbHideAlert |}]
  ∧ alert_shows second_alert "danger" (Lit "second")
  ∧ now two_seconds_later = 5000
  ∧ el_content <$> document two_seconds_later !! "alertMessage" = Some (Text (Lit "second"))
  ∧ el_display <$> document two_seconds_later !! "alertSection" = Some "none"
  ∧ timers two_seconds_later
      = [{| tid := 2; due := 8000; period := None; cb := CbHideAlert |}].
Proof. vm_compute. repeat split; reflexivity. Qed.

(** ** Successful requests *)

Lemma bind_setTimeout {C} c d (k : nat → M C) s :
  (setTimeout c d ≫= k) s
    = k (nextTimer s)
        (set_timers (S (nextTimer s))
           (timers s ++ [{| tid := nextTimer s; due := now s + d;
                            period := None; cb := c |}]) s).
Proof. reflexivity. Qed.

Lemma await_succeeded {A C} (st : Z) (a : A) (k : A → M C) s :
  ok st = true →
  (await_fetch (Response st (Json a)) ≫= λ response,
     if negb (ok response.1) then throw (httpError response.1)
     else await_json response.2 ≫= k) s = k a s.
Proof.
  intros Hok. unfold await_fetch. rewrite bind_ret. cbn [fst snd].
  by rewrite Hok.
Qed.

(** X1. When the request behind a button is answered with a 2xx status
    and a JSON object carrying a message (for a retrain, any parsable
    body), the method returns with the alert of that button (success for retrain and normal scan,
    danger for the emergency scan, info for stop), schedules one refresh
    (1000 ms after a retrain, 500 ms otherwise) and enables the button
    again with its original content.  A scan hides the scan-selection
    section and shows the stop control, a stop does the reverse, a retrain
    leaves both; no other element changes and no fetch is issued yet. *)
Theorem successful_request_switches_layout (s : state) (b : button) (o : content)
    (st : Z) (result : text) (e : element) :
  ok st = true →
  has s "alertSection" → has s "healthAlert" → has s "alertMessage" →
  document s !! button_id b = Some e →
  let s' := final (resume_of b o (Response st (Json result)) s) in
  resume_of b o (Response st (Json result)) s = Ret tt s'
  ∧ alert_shows s' (success_alert b result).1 (success_alert b result).2
  ∧ timers s' = timers s ++ [hide_timer s; refresh_timer s (refresh_delay b)]
  ∧ el_disabled <$> document s' !! button_id b = Some false
  ∧ el_content <$> document s' !! button_id b = Some o
  ∧ el_display <$> document s' !! "fingerprintSection"
      = (λ e, from_option fst (el_display e) (layout_after b))
          <$> document s !! "fingerprintSection"
  ∧ el_display <$> document s' !! "stopBtn"
      = (λ e, from_option snd (el_display e) (layout_after b)) <$> document s !! "stopBtn"
  ∧ (∀ id, id ≠ button_id b → id ≠ "alertSection" → id ≠ "healthAlert" →
           id ≠ "alertMessage" → id ≠ "fingerprintSection" → id ≠ "stopBtn" →
           document s' !! id = document s !! id)
  ∧ (pending s', sent s', isUpdating s', emergencyMode s', chart s')
      = (pending s, sent s, isUpdating s, emergencyMode s, chart s).
Proof.
  intros Hok Ha1 Ha2 Ha3 He s'.
  destruct (document s !! "fingerprintSection") as [fs|] eqn:Hfs;
    destruct (document s !! "stopBtn") as [sb|] eqn:Hsb;
    destruct b; cbn [resume_of button_id success_alert refresh_delay layout_after
                     from_option fst snd fmap option_fmap option_map] in He, s' |- *;
    simplify_eq;
    (let m := eval cbv delta [s'] in s' in
     match m with final ?c => eassert (c = Ret tt _) as Hrun end;
     [ unfold retrainModel_resume, triggerNormalScan_resume,
         triggerEmergencyScan_resume, stopMonitoring_resume, try_catch_finally;
       rewrite await_succeeded by done;
       run_alert; unfold getElementById;
       repeat first [ run_step | rewrite bind_setTimeout
                    | progress (state_simpl; rewrite ?lookup_alter_ne by discriminate)
                    | rewrite Hfs | rewrite Hsb | rewrite He | progress cbn [present] ];
       change (update_element ?i ?g ?s0)
         with (Ret tt (set_document (alter g i (document s0)) s0));
       change (@mret M _ unit tt) with (λ s0 : state, Ret tt s0); cbv beta iota;
       reflexivity
     | subst s'; rewrite Hrun; clear Hrun ]);
    cbn [final]; state_simpl;
    (split; [done |]);
    (split; [unfold alert_shows; state_simpl; lookup_simpl;
             destruct Ha1 as [? ->], Ha2 as [? ->], Ha3 as [? ->]; done |]);
    (split; [by rewrite <- app_assoc |]);
    (split; [lookup_simpl; by rewrite ?He, ?Hsb |]);
    (split; [lookup_simpl; by rewrite ?He, ?Hsb |]);
    (split; [lookup_simpl; rewrite ?Hfs; reflexivity |]);
    (split; [lookup_simpl; rewrite ?Hsb, ?He; reflexivity |]);
    (split; [intros id ? ? ? ? ? ?; by rewrite !lookup_alter_ne by done |]);
    done.
Qed.

Lemma successful_request_switches_layout_witness :
  let s' := final (resume_of StopBtn (Html (Lit "Stop Monitoring"))
                     (Response 200 (Json (Lit "Monitoring stopped"))) settled) in
  alert_shows s' "info" (Lit "Monitoring stopped")
  ∧ el_display <$> document s' !! "fingerprintSection" = Some "block"
  ∧ el_display <$> document s' !! "stopBtn" = Some "none".
Proof.
  destruct (successful_request_switches_layout settled StopBtn (Html (Lit "Stop Monitoring"))
              200 (Lit "Monitoring stopped")
              (node (Html (Lit (icon "fas fa-stop me-2" +:+ "Stop Monitoring")))
                 ["btn"; "btn-outline-secondary"; "btn-sm"; "w-100"] "none"))
    as (_ & H1 & _ & _ & _ & H2 & H3 & _);
    [ reflexivity | vm_compute; eexists; reflexivity | vm_compute; eexists; reflexivity
    | vm_compute; eexists; reflexivity | vm_compute; reflexivity | ].
  split; [exact H1 |]. split.
  - rewrite H2. vm_compute. reflexivity.
  - rewrite H3. vm_compute. reflexivity.
Defined.

(** X2. A click on an enabled button sends exactly one request, disables
    the button and shows its busy label; until the reply arrives further
    clicks on it are ignored, so a control never has two requests pending.
    No other element is touched. *)
Theorem click_sends_one_request (s : state) (b : button) (e : element) :
  document s !! button_id b = Some e → el_disabled e = false →
  let s1 := step (Click b) s in
  sent s1 = sent s ++ [url_of b]
  ∧ pending s1 = pending s ++ [request_of b (el_content e)]
  ∧ document s1 !! button_id b
      = Some (with_content (spinner (busy_label b)) (with_disabled true e))
  ∧ (∀ id, id ≠ button_id b → document s1 !! id = document s !! id)
  ∧ step (Click b) s1 = s1
  ∧ (timers s1, isUpdating s1, emergencyMode s1, chart s1)
      = (timers s, isUpdating s, emergencyMode s, chart s).
Proof.
  intros He Hen s1.
  assert (s1 = set_pending (pending s ++ [request_of b (el_content e)])
                 (set_sent (sent s ++ [url_of b])
                    (set_document
                       (alter (with_content (spinner (busy_label b))) (button_id b)
                          (alter (with_disabled true) (button_id b) (document s))) s)))
    as Hs1.
  { subst s1. cbn [step]. by rewrite He, Hen, (onClick_enabled s b e He). }
  assert (document s1 !! button_id b
          = Some (with_content (spinner (busy_label b)) (with_disabled true e))) as Hb.
  { rewrite Hs1. state_simpl. rewrite !lookup_alter_eq, He. done. }
  split; [by rewrite Hs1 |]. split; [by rewrite Hs1 |]. split; [done |].
  split; [intros id Hid; rewrite Hs1; state_simpl; by rewrite !lookup_alter_ne by done |].
  split; [| by rewrite Hs1].
  cbn [step]. by rewrite Hb.
Qed.

Lemma click_sends_one_request_witness :
  sent (step (Click EmergencyScanBtn) settled)
    = sent settled ++ ["POST /api/fingerprint-scan"]
  ∧ step (Click EmergencyScanBtn) (step (Click EmergencyScanBtn) settled)
    = step (Click EmergencyScanBtn) settled.
Proof.
  destruct (click_sends_one_request settled EmergencyScanBtn
              (node (Html (Lit (icon "fas fa-fingerprint me-2" +:+ "Emergency Test Scan")))
                 ["btn"; "btn-danger"; "btn-sm"; "w-100"; "mb-2"] ""))
    as (H1 & _ & _ & _ & H2 & _);
    [ vm_compute; reflexivity | reflexivity | ].
  exact (conj H1 H2).
Defined.

(** ** What the polling loop writes *)

Lemma preserves_forEach_Forall {A B} (f : state → B) (l : list A) (k : A → M unit) :
  Forall (λ a, preserves f (k a)) l → preserves f (forEach l k).
Proof.
  induction 1 as [|x l Hx _ IH]; simpl.
  - apply preserves_mret.
  - apply preserves_bind; [exact Hx | by intros _].
Qed.

(** Turns [id ∉ [a; b; ...]] into the disequalities [id ≠ a], [id ≠ b], ... *)
Ltac split_not_elem H :=
  repeat (apply not_elem_of_cons in H; destruct H as [? H]); clear H.

(** Proves that a method keeps the element [id], from the disequalities
    between [id] and the ids the method writes. *)
Ltac frame_ids :=
  repeat first
    [ match goal with
      | |- preserves _ (forEach (_ :: _) _) =>
          apply preserves_forEach_Forall;
          repeat first [apply Forall_nil_2 | apply Forall_cons_2]
      end
    | progress cbn beta iota delta [fst snd]
    | frame_step
    | apply preserves_modify; intros; cbv beta; state_simpl;
      rewrite ?lookup_alter_ne by done; reflexivity ].

Lemma showAlert_writes ty msg :
  writes_only ["alertSection"; "healthAlert"; "alertMessage"] (showAlert ty msg).
Proof. intros id Hid. split_not_elem Hid. unfold showAlert. frame_ids. Qed.

Lemma showLoading_writes b : writes_only ["loadingOverlay"] (showLoading b).
Proof. intros id Hid. split_not_elem Hid. unfold showLoading. frame_ids. Qed.

Lemma updateConnectionStatus_writes b :
  writes_only ["connectionStatus"] (updateConnectionStatus b).
Proof. intros id Hid. split_not_elem Hid. unfold updateConnectionStatus. frame_ids. Qed.

Lemma updateMetrics_writes hd :
  writes_only ["heartRate"; "bloodOxygen"; "temperature"; "activityLevel";
               "sleepQuality"; "stressLevel"] (updateMetrics hd).
Proof. intros id Hid. split_not_elem Hid. unfold updateMetrics. frame_ids. Qed.

Lemma updateHealthStatus_writes ar hd :
  writes_only ["healthStatus"; "statusIndicator"; "healthScore"; "healthScoreBar";
               "alertSection"; "healthAlert"; "alertMessage"] (updateHealthStatus ar hd).
Proof.
  intros id Hid. pose proof Hid as Hid'. split_not_elem Hid.
  unfold updateHealthStatus. frame_ids;
    apply showAlert_writes; rewrite !not_elem_of_cons; by repeat split; try apply not_elem_of_nil.
Qed.

Lemma updateRecommendations_writes recs :
  writes_only ["recommendationsList"] (updateRecommendations recs).
Proof. intros id Hid. split_not_elem Hid. unfold updateRecommendations. frame_ids. Qed.

Lemma updateModelMetrics_writes m :
  writes_only ["modelAccuracy"; "trainingSamples"; "anomaliesDetected"]
    (updateModelMetrics m).
Proof. intros id Hid. split_not_elem Hid. unfold updateModelMetrics. frame_ids. Qed.

Lemma updateLastUpdateTime_writes : writes_only ["lastUpdate"] updateLastUpdateTime.
Proof. intros id Hid. split_not_elem Hid. unfold updateLastUpdateTime. frame_ids. Qed.

Lemma writes_only_weaken {A} (W W' : list string) (m : M A) :
  W ⊆ W' → writes_only W m → writes_only W' m.
Proof. intros Hsub Hm id Hid. apply Hm. intros Hin. by apply Hid, Hsub. Qed.

Lemma sublist_of_rendered_ids (W : list string) :
  forallb (λ x, bool_decide (x ∈ rendered_ids)) W = true → W ⊆ rendered_ids.
Proof.
  intros H x Hx. rewrite forallb_forall in H.
  apply list_elem_of_In in Hx. specialize (H x Hx).
  by apply bool_decide_eq_true in H.
Qed.

(** X3. A snapshot update, whatever the reply, writes only the elements it
    renders into: the buttons, the scan-selection section and the stop
    control are never touched by the polling loop, and neither are the
    loop's own timer handle or the log of requests. *)
Theorem snapshot_update_writes_only_rendered (s : state) (r : reply Snapshot)
    (id : string) :
  id ∉ rendered_ids →
  document (final (updateHealthData s)) !! id = document s !! id
  ∧ document (final (updateHealthData_resume r s)) !! id = document s !! id
  ∧ document (step (HealthReply r) s) !! id = document s !! id
  ∧ updateTimer (final (updateHealthData_resume r s)) = updateTimer s
  ∧ sent (final (updateHealthData_resume r s)) = sent s.
Proof.
  intros Hid.
  assert (∀ W {A} (m : M A),
            forallb (λ x, bool_decide (x ∈ rendered_ids)) W = true →
            writes_only W m → preserves (λ s, document s !! id) m) as Hw.
  { intros W A m HW Hm.
    apply (writes_only_weaken W rendered_ids m (sublist_of_rendered_ids W HW) Hm id Hid). }
  assert (preserves (λ s, document s !! id) (updateHealthData_resume r)) as Hresume.
  { unfold updateHealthData_resume, await_fetch, await_json.
    repeat first
      [ match goal with
        | |- preserves _ (showAlert _ _) => eapply Hw; [| apply showAlert_writes]
        | |- preserves _ (showLoading _) => eapply Hw; [| apply showLoading_writes]
        | |- preserves _ (updateConnectionStatus _) =>
            eapply Hw; [| apply updateConnectionStatus_writes]
        | |- preserves _ (updateMetrics _) => eapply Hw; [| apply updateMetrics_writes]
        | |- preserves _ (updateHealthStatus _ _) =>
            eapply Hw; [| apply updateHealthStatus_writes]
        | |- preserves _ (updateRecommendations _) =>
            eapply Hw; [| apply updateRecommendations_writes]
        | |- preserves _ (updateModelMetrics _) =>
            eapply Hw; [| apply updateModelMetrics_writes]
        | |- preserves _ updateLastUpdateTime =>
            eapply Hw; [| apply updateLastUpdateTime_writes]
        | |- preserves _ (updateChart _) => by apply updateChart_frame
        | |- forallb _ _ = true => vm_compute; reflexivity
        end
      | frame_step ]. }
  split; [| split; [apply Hresume | split]].
  - unfold updateHealthData.
    assert (preserves (λ s, document s !! id)
              (updating ← gets isUpdating;
               if (updating : bool) then mret tt
               else modify (set_isUpdating true);; showLoading true;;
                    fetch "GET /api/health-data" HealthDataReq)) as H; [| apply H].
    repeat first
      [ match goal with
        | |- preserves _ (showLoading _) => eapply Hw; [| apply showLoading_writes]
        | |- forallb _ _ = true => vm_compute; reflexivity
        end
      | frame_step ].
  - cbn [step]. destruct (take_health (pending s)); [| done].
    apply (Hresume (set_pending _ s)).
  - split; by apply updateHealthData_resume_frame.
Qed.

Lemma snapshot_update_writes_only_rendered_witness :
  document (step (HealthReply (Response 500 (BadJson (Lit "oops")))) booted) !! "stopBtn"
    = document booted !! "stopBtn".
Proof.
  refine (proj1 (proj2 (proj2 (snapshot_update_writes_only_rendered booted
            (Response 500 (BadJson (Lit "oops"))) "stopBtn" _)))).
  vm_compute. intros H. repeat (apply elem_of_cons in H as [H|H]; [discriminate H |]).
  by apply elem_of_nil in H.
Defined.

(** X4. After a failed snapshot fetch the page keeps what it showed: only
    the alert slot, the connection indicator and the loading overlay are
    written, and the chart, the emergency flag and the time of the last
    update stay as they were. *)
Theorem failed_fetch_keeps_rendered_data (s : state) (r : reply Snapshot) (id : string) :
  failed r = true → id ∉ failure_ids →
  let s' := final (updateHealthData_resume r s) in
  document s' !! id = document s !! id
  ∧ lastUpdateTime s' = lastUpdateTime s
  ∧ emergencyMode s' = emergencyMode s
  ∧ chart s' = chart s.
Proof.
  intros Hf Hid s'. split_not_elem Hid.
  set (f := λ s : state, (document s !! id, lastUpdateTime s, emergencyMode s, chart s)).
  cut (f s' = f s); [by intros [= -> -> -> ->] |].
  subst s'. unfold updateHealthData_resume.
  rewrite (try_catch_finally_frame f).
  - by rewrite await_failed by done.
  - intros e. subst f. unfold showAlert, updateConnectionStatus. frame_ids.
  - subst f. unfold showLoading. frame_ids.
Qed.

Lemma failed_fetch_keeps_rendered_data_witness :
  document (final (updateHealthData_resume (NetworkError (Lit "Failed to fetch")) settled))
    !! "healthScore" = document settled !! "healthScore".
Proof.
  refine (proj1 (failed_fetch_keeps_rendered_data settled
                   (NetworkError (Lit "Failed to fetch")) "healthScore" _ _)).
  - reflexivity.
  - vm_compute. intros H. repeat (apply elem_of_cons in H as [H|H]; [discriminate H |]).
    by apply elem_of_nil in H.
Defined.

(** ** A successful update *)

Lemma try_catch_finally_Ret body h fin s s1 :
  body s = Ret tt s1 → try_catch_finally body h fin s = fin s1.
Proof. intros H. unfold try_catch_finally. rewrite H. by destruct (fin s1). Qed.

Lemma set_chart_same (s : state) : set_chart (chart s) s = s.
Proof. by destruct s. Qed.

Lemma updateChart_chartable (s : state) (hd : option HealthSnapshot) :
  chartable s hd = true → ∃ c, updateChart hd s = Ret tt (set_chart c s).
Proof.
  unfold chartable, updateChart. rewrite bind_gets.
  destruct (chart s) as [c|] eqn:Hc; cbn [present negb].
  - intros [Hd Hlen]%andb_prop. destruct hd as [h|]; [| done].
    apply Nat.leb_le in Hlen.
    destruct c as [lbl [|d0 [|d1 [|d2 [|d3 ds]]]]]; simpl in Hlen; try lia.
    destruct s; simpl in Hc; subst.
    unfold push_data, gets, modify, mbind, M_bind, set_chart. simpl.
    case_bool_decide; by eexists.
  - intros _. exists None. by rewrite <- Hc, set_chart_same.
Qed.

Lemma set_document_same (s : state) : set_document (document s) s = s.
Proof. by destruct s. Qed.

Lemma alter_absent (g : element → element) (id : string) (d : gmap string element) :
  d !! id = None → alter g id d = d.
Proof.
  intros H. apply map_eq. intros j. destruct (decide (id = j)) as [<-|Hne].
  - by rewrite lookup_alter_eq, H.
  - by rewrite lookup_alter_ne.
Qed.

(** A write guarded by [if (element)] is a plain [alter]: on a missing
    element both do nothing. *)
Lemma guarded_update (id : string) (g : element → element) (s : state) :
  (if present (document s !! id) then update_element id g else mret tt) s
    = Ret tt (set_document (alter g id (document s)) s).
Proof.
  destruct (document s !! id) eqn:H; cbn [present]; [done |].
  by rewrite alter_absent, set_document_same.
Qed.

Lemma showLoading_run (b : bool) (s : state) :
  showLoading b s
    = Ret tt (set_document
                (alter (if b then classList_add "show" else classList_remove "show")
                   "loadingOverlay" (document s)) s).
Proof.
  unfold showLoading, getElementById. rewrite bind_gets.
  destruct b; [rewrite <- guarded_update | rewrite <- guarded_update];
    by destruct (document s !! "loadingOverlay").
Qed.

Lemma updateConnectionStatus_run (b : bool) (s : state) :
  indicator_ok s = true →
  updateConnectionStatus b s
    = Ret tt (set_document
                (alter (with_prevClass (if b
                                        then ["fas"; "fa-wifi"; "text-success"; "me-1"]
                                        else ["fas"; "fa-wifi"; "text-danger"; "me-1"]))
                   "connectionStatus"
                   (alter (with_content (Text (Lit (if b then "Connected"
                                                    else "Disconnected"))))
                      "connectionStatus" (document s))) s).
Proof.
  unfold indicator_ok, updateConnectionStatus, getElementById. rewrite bind_gets.
  destruct (document s !! "connectionStatus") as [el|] eqn:H.
  - intros Hp. rewrite bind_update_element.
    destruct (el_prevClass el); [| done]. reflexivity.
  - intros _. by rewrite (alter_absent _ _ _ H), (alter_absent _ _ _ H), set_document_same.
Qed.

Lemma updateLastUpdateTime_run (t : Z) (s : state) :
  lastUpdateTime s = Some t →
  updateLastUpdateTime s
    = Ret tt (set_document
                (alter (with_content (Text (Cat (Lit "Last updated: ")
                                              (LocaleTime (DateAt t)))))
                   "lastUpdate" (document s)) s).
Proof.
  intros Ht. unfold updateLastUpdateTime, getElementById.
  rewrite !bind_gets, Ht.
  destruct (document s !! "lastUpdate") eqn:H; [done |].
  by rewrite alter_absent, set_document_same.
Qed.

Ltac frame_view_of v :=
  repeat first
    [ match goal with
      | |- preserves _ (forEach (_ :: _) _) =>
          apply preserves_forEach_Forall;
          repeat first [apply Forall_nil_2 | apply Forall_cons_2]
      end
    | progress cbn beta iota delta [fst snd]
    | frame_step
    | apply preserves_modify; intros; cbv beta; unfold v; state_simpl;
      rewrite ?lookup_alter_ne by discriminate; reflexivity ].

Lemma renderers_keep_update_view hd ar recs mm :
  preserves update_view (updateMetrics hd)
  ∧ preserves update_view (updateHealthStatus ar hd)
  ∧ preserves update_view (updateRecommendations recs)
  ∧ preserves update_view (updateModelMetrics mm).
Proof.
  repeat split.
  - unfold updateMetrics. frame_view_of update_view.
  - unfold updateHealthStatus, showAlert. frame_view_of update_view.
  - unfold updateRecommendations. frame_view_of update_view.
  - unfold updateModelMetrics. frame_view_of update_view.
Qed.

(** X5. A 2xx reply whose body has the shape of a snapshot and that
    [updateChart] can take (there is a reading, or there is no chart on the
    page) completes without an exception: the time
    of the last update is the current clock value and is shown, the
    connection indicator says Connected, the loading overlay is hidden and
    the flag is cleared; the pending requests, the log and the timer handle
    are untouched. *)
Theorem successful_update_is_recorded (s : state) (st : Z) (snap : Snapshot) :
  ok st = true → chartable s (health_data snap) = true → indicator_ok s = true →
  let s' := final (updateHealthData_resume (Response st (Json snap)) s) in
  updateHealthData_resume (Response st (Json snap)) s = Ret tt s'
  ∧ lastUpdateTime s' = Some (now s)
  ∧ isUpdating s' = false
  ∧ el_content <$> document s' !! "connectionStatus"
      = (λ _, Text (Lit "Connected")) <$> document s !! "connectionStatus"
  ∧ el_content <$> document s' !! "lastUpdate"
      = (λ _, Text (Cat (Lit "Last updated: ") (LocaleTime (DateAt (now s)))))
          <$> document s !! "lastUpdate"
  ∧ el_className <$> document s' !! "loadingOverlay"
      = (λ e, filter (λ c, c ≠ "show") (el_className e)) <$> document s !! "loadingOverlay"
  ∧ (pending s', sent s', updateTimer s') = (pending s, sent s, updateTimer s).
Proof.
  intros Hok Hchart Hind s'.
  destruct (renderers_keep_update_view (health_data snap) (anomaly_result snap)
              (recommendation_set snap) (metrics snap)) as (F1 & F2 & F3 & F4).
  subst s'. unfold updateHealthData_resume.
  match goal with |- context [try_catch_finally ?B _ _ s] =>
    assert (∃ s1, B s = Ret tt s1
                  ∧ lastUpdateTime s1 = Some (now s)
                  ∧ (pending s1, sent s1, updateTimer s1) = (pending s, sent s, updateTimer s)
                  ∧ document s1 !! "connectionStatus"
                      = with_prevClass ["fas"; "fa-wifi"; "text-success"; "me-1"]
                          <$> (with_content (Text (Lit "Connected"))
                                 <$> document s !! "connectionStatus")
                  ∧ document s1 !! "lastUpdate"
                      = with_content (Text (Cat (Lit "Last updated: ")
                                              (LocaleTime (DateAt (now s)))))
                          <$> document s !! "lastUpdate"
                  ∧ document s1 !! "loadingOverlay" = document s !! "loadingOverlay")
      as (s1 & Hbody & H1 & H3 & H4 & H5 & H6)
  end.
  { rewrite await_succeeded by done.
    skip update_view; [apply updateMetrics_returns | apply F1 |].
    skip update_view; [apply updateHealthStatus_returns | apply F2 |].
    skip update_view; [apply updateRecommendations_returns | apply F3 |].
    skip update_view; [apply updateModelMetrics_returns | apply F4 |].
    repeat match goal with H : update_view _ = update_view _ |- _ =>
      unfold update_view in H; injection H as ? ? ? ? ? ? ? ? ? end.
    match goal with |- ∃ _, (updateChart _ ≫= _) ?s4 = _ ∧ _ =>
      assert (update_view s4 = update_view s) as Hv by (unfold update_view; congruence);
      unfold update_view in Hv; injection Hv as Hn4 Hp4 Hs4 Hu4 _ Hc4 Hd4 Hl4 Ho4;
      destruct (updateChart_chartable s4 (health_data snap)) as [c Hc];
      [unfold chartable in *; by rewrite Hc4 |]
    end.
    erewrite bind_Ret by exact Hc. rewrite bind_modify.
    erewrite bind_Ret by (apply updateLastUpdateTime_run; reflexivity).
    rewrite updateConnectionStatus_run.
    - eexists. split; [reflexivity |]. state_simpl. lookup_simpl.
      rewrite Hn4, Hp4, Hs4, Hu4, Hd4, Hl4, Ho4. done.
    - unfold indicator_ok in *. state_simpl. rewrite lookup_alter_ne by discriminate.
      by rewrite Hd4. }
  rewrite (try_catch_finally_Ret _ _ _ _ _ Hbody).
  rewrite (bind_Ret _ _ _ _ _ (showLoading_run false s1)). unfold modify.
  cbn [final]. state_simpl. lookup_simpl. injection H3 as -> -> ->.
  rewrite H1, H4, H5, H6.
  destruct (document s !! "connectionStatus"), (document s !! "lastUpdate"),
    (document s !! "loadingOverlay"); done.
Qed.

Lemma successful_update_is_recorded_witness :
  let s' := final (updateHealthData_resume (Response 200 (Json (snapshot_of None waiting)))
                     booted_without_chart) in
  lastUpdateTime s' = Some 0
  ∧ el_content <$> document s' !! "connectionStatus" = Some (Text (Lit "Connected")).
Proof.
  destruct (successful_update_is_recorded booted_without_chart 200
              (snapshot_of None waiting))
    as (_ & H1 & _ & H2 & _);
    [ reflexivity | vm_compute; reflexivity | vm_compute; reflexivity | ].
  split; [exact H1 |]. rewrite H2. vm_compute. reflexivity.
Defined.

(** ** Rendering the status, the tiles and the recommendations *)

(** X6. For the waiting sentinel, with the status elements on the page,
    [updateHealthStatus] writes the waiting text and the neutral indicator
    and returns: the emergency flag, the score, the score bar, the alert
    slot and the timers are left as they were, whatever the rest of the
    verdict and the reading say. *)
Theorem waiting_status_leaves_the_rest (s : state) (ar : AnomalyResult)
    (hd : option HealthSnapshot) :
  status ar = Some "Waiting for fingerprint scan..." →
  has s "healthStatus" → has s "statusIndicator" →
  updateHealthStatus ar hd s =
    Ret tt (set_document
              (alter (with_content (Html (Lit (icon "fas fa-circle text-secondary"))))
                 "statusIndicator"
                 (alter (with_content (Text (Lit "Waiting for scan..."))) "healthStatus"
                    (document s))) s).
Proof.
  intros Hst [e1 H1] [e2 H2].
  unfold updateHealthStatus, getElementById. run_method. rewrite H1, H2.
  cbn [present andb]. rewrite bool_decide_true by done. by run_method.
Qed.

Lemma waiting_status_leaves_the_rest_witness :
  emergencyMode (final (updateHealthStatus waiting None
                          (set_emergencyMode true settled))) = true
  ∧ document (final (updateHealthStatus waiting None (set_emergencyMode true settled)))
      !! "healthScore" = document settled !! "healthScore".
Proof.
  rewrite (waiting_status_leaves_the_rest (set_emergencyMode true settled) waiting None);
    [ vm_compute; split; reflexivity | reflexivity
    | vm_compute; eexists; reflexivity | vm_compute; eexists; reflexivity ].
Defined.

(** X7. For a verdict that is not the waiting sentinel and no reading, with
    the score elements on the page, the score shows the placeholder and the
    bar is reset: width 0% and no band class. *)
Theorem missing_reading_resets_score (s : state) (ar : AnomalyResult) :
  status ar ≠ Some "Waiting for fingerprint scan..." →
  has s "healthScore" → has s "healthScoreBar" →
  let s' := final (updateHealthStatus ar None s) in
  el_content <$> document s' !! "healthScore" = Some (Text (Lit "--"))
  ∧ el_width <$> document s' !! "healthScoreBar" = Some (Lit "0%")
  ∧ el_className <$> document s' !! "healthScoreBar" = Some ["progress-bar"].
Proof.
  intros Hst [x1 Hx1] [x2 Hx2] s'. subst s'.
  set (f := λ s : state, (document s !! "healthScore", document s !! "healthScoreBar")).
  assert (∀ ty msg, preserves f (showAlert ty msg)) as Halert.
  { intros. unfold showAlert, f. frame_lookup. }
  assert (∀ s1, f s1 = f s →
    let s' := final
      ((update_element "healthScore" (with_content (Text (Lit "--")));;
        update_element "healthScoreBar" (with_width (Lit "0%"));;
        update_element "healthScoreBar" (with_className ["progress-bar"])) s1) in
    el_content <$> document s' !! "healthScore" = Some (Text (Lit "--"))
    ∧ el_width <$> document s' !! "healthScoreBar" = Some (Lit "0%")
    ∧ el_className <$> document s' !! "healthScoreBar" = Some ["progress-bar"]) as Hbar.
  { intros s1 [= Hs1 Hs2] s'. subst s'. run_method.
    change (final (update_element ?i ?g ?s0)) with (set_document (alter g i (document s0)) s0).
    state_simpl. lookup_simpl. by rewrite Hs1, Hs2, Hx1, Hx2. }
  unfold updateHealthStatus, getElementById. run_method. rewrite Hx1, Hx2.
  destruct (document s !! "healthStatus") as [e1|],
    (document s !! "statusIndicator") as [e2|];
    cbn [present andb]; run_method; cbv iota; try (by apply Hbar).
  rewrite bool_decide_false by exact Hst. cbv zeta.
  destruct (is_anomaly ar); run_method.
  - repeat case_bool_decide; run_method; cbv iota.
    + skip f; [apply showAlert_returns | apply Halert |].
      run_method. cbv iota. apply Hbar. etrans; [eassumption |].
      unfold f. state_simpl. by lookup_simpl.
    + skip f; [apply showAlert_returns | apply Halert |].
      run_method. cbv iota. apply Hbar. etrans; [eassumption |].
      unfold f. state_simpl. by lookup_simpl.
    + apply Hbar. unfold f. state_simpl. by lookup_simpl.
  - cbv iota. apply Hbar. unfold f. state_simpl. by lookup_simpl.
Qed.

Lemma missing_reading_resets_score_witness :
  el_className <$>
    document (final (updateHealthStatus (verdict false "Low") None settled))
      !! "healthScoreBar" = Some ["progress-bar"].
Proof.
  refine (proj2 (proj2 (missing_reading_resets_score settled (verdict false "Low") _ _ _)));
    [ discriminate | vm_compute; eexists; reflexivity | vm_compute; eexists; reflexivity ].
Defined.

Lemma bind_guarded_update {C} (id : string) (g : element → element)
    (k : unit → M C) (s : state) :
  ((getElementById id ≫= λ el,
      if present el then update_element id g else mret tt) ≫= k) s
    = k tt (set_document (alter g id (document s)) s).
Proof.
  rewrite bind_assoc. unfold getElementById. rewrite bind_gets.
  by rewrite (bind_Ret _ _ _ _ _ (guarded_update id g s)).
Qed.

(** X8. Without a reading every tile that is on the page shows the
    placeholder; a missing tile is skipped without error, no highlight and
    no timer is added, and nothing else in the state changes. *)
Theorem no_reading_shows_placeholders (s : state) (id : string) :
  ∃ d, updateMetrics None s = Ret tt (set_document d s)
       ∧ d !! id = if bool_decide (id ∈ metric_ids)
                   then with_content (Text (Lit "--")) <$> document s !! id
                   else document s !! id.
Proof.
  unfold updateMetrics. cbn [forEach].
  rewrite !bind_guarded_update. state_simpl.
  eexists. split.
  - reflexivity.
  - unfold metric_ids.
    repeat match goal with
    | |- context [bool_decide (id ∈ ?x :: ?l)] =>
        destruct (decide (id = x)) as [->|?];
          [ replace (bool_decide (x ∈ x :: l)) with true
              by (symmetry; apply bool_decide_eq_true, elem_of_cons; by left);
            lookup_simpl; reflexivity
          | rewrite (bool_decide_ext (id ∈ x :: l) (id ∈ l))
              by (rewrite elem_of_cons; split; [by intros [?|?] | by right]) ]
    end.
    rewrite bool_decide_false by apply not_elem_of_nil.
    by rewrite !lookup_alter_ne by done.
Qed.

Lemma classList_remove_add (c : string) (e : element) :
  el_className (classList_remove c (classList_add c e))
    = filter (λ x, x ≠ c) (el_className e).
Proof.
  unfold classList_remove, classList_add. case_bool_decide; cbn; [done |].
  rewrite filter_app, filter_cons. case_decide; [done |].
  by rewrite filter_nil, app_nil_r.
Qed.

(** X9. A reading fills the six tiles (percent sign and degree unit
    included), marks each as updated and arms one timer per tile, due
    1000 ms later; when these timers have fired every tile still shows its
    value and has the classes it had before, without the mark. *)
Theorem reading_fills_and_highlights_tiles (s : state) (h : HealthSnapshot) :
  Forall (has s) metric_ids →
  let s1 := final (updateMetrics (Some h) s) in
  let s2 := highlights_end s1 in
  Forall (λ iv, document s1 !! iv.1
                = classList_add "updated" <$> (with_content (Text iv.2)
                                                 <$> document s !! iv.1))
    (metric_values h)
  ∧ timers s1 = timers s ++ highlight_timers s
  ∧ Forall (λ iv, el_content <$> document s2 !! iv.1 = Some (Text iv.2)
                  ∧ el_className <$> document s2 !! iv.1
                    = (λ e, filter (λ c, c ≠ "updated") (el_className e))
                        <$> document s !! iv.1)
      (metric_values h).
Proof.
  intros H s1 s2. unfold metric_ids in H.
  repeat (destruct (proj1 (Forall_cons _ _ _) H) as [[? ?] H']; clear H; rename H' into H).
  clear H.
  eassert (updateMetrics (Some h) s = Ret tt _) as Hrun.
  { unfold updateMetrics. cbn [forEach fst snd]. unfold getElementById.
    repeat first
      [ run_step | rewrite bind_setTimeout
      | progress (state_simpl; rewrite ?lookup_alter_ne by discriminate)
      | match goal with
        | H : document s !! ?i = Some _ |- context [document s !! ?i] => rewrite H
        end
      | progress cbn [present] ].
    reflexivity. }
  subst s2 s1. rewrite Hrun. clear Hrun.
  unfold highlights_end, metric_ids, metric_values, highlight_timers.
  cbn [foldl run_callback imap]. unfold update_element, modify.
  cbn [final]. state_simpl.
  split; [| split].
  - repeat (apply Forall_cons; split; [cbn [fst snd]; by lookup_simpl |]).
    by apply Forall_nil.
  - rewrite <- !app_assoc. reflexivity.
  - repeat (apply Forall_cons; split;
            [cbn [fst snd]; lookup_simpl;
             match goal with
             | H : document s !! ?i = Some _ |- context [document s !! ?i] => rewrite H
             end;
             cbn [fmap option_fmap option_map]; split; f_equal;
             [ unfold classList_remove, classList_add; case_bool_decide; reflexivity
             | rewrite classList_remove_add; reflexivity ] |]).
    by apply Forall_nil.
Qed.

Lemma reading_fills_and_highlights_tiles_witness :
  Forall (has settled) metric_ids
  ∧ timers (final (updateMetrics (Some (reading "09:00:05" 70)) settled))
      = timers settled ++ highlight_timers settled.
Proof.
  assert (Forall (has settled) metric_ids) as H.
  { repeat (apply Forall_cons_2; [vm_compute; eexists; reflexivity |]). apply Forall_nil_2. }
  exact (conj H (proj1 (proj2
           (reading_fills_and_highlights_tiles settled (reading "09:00:05" 70) H)))).
Defined.

Lemma forEach_update_element {A} (id : string) (g : A → element → element)
    (l : list A) (s : state) :
  forEach l (λ x, update_element id (g x)) s
    = Ret tt (set_document (foldl (λ d x, alter (g x) id d) (document s) l) s).
Proof.
  revert s. induction l as [|x l IH]; intros s; cbn [forEach foldl].
  - by rewrite set_document_same.
  - rewrite bind_update_element, IH. reflexivity.
Qed.

Lemma lookup_foldl_alter {A} (id : string) (g : A → element → element) (l : list A)
    (d : gmap string element) :
  foldl (λ d x, alter (g x) id d) d l !! id
    = (λ e, foldl (λ e x, g x e) e l) <$> d !! id.
Proof.
  revert d. induction l as [|x l IH]; intros d; cbn [foldl].
  - by destruct (d !! id).
  - rewrite IH, lookup_alter_eq. by destruct (d !! id).
Qed.

Lemma lookup_foldl_alter_ne {A} (id j : string) (g : A → element → element)
    (l : list A) (d : gmap string element) :
  id ≠ j → foldl (λ d x, alter (g x) id d) d l !! j = d !! j.
Proof.
  intros Hne. revert d. induction l as [|x l IH]; intros d; cbn [foldl]; [done |].
  by rewrite IH, lookup_alter_ne.
Qed.

Lemma appended_children (e : element) (items : list recItem) :
  let e' := foldl (λ e x, with_content (Append (el_content e) x) e) e items in
  children (el_content e') = children (el_content e) ++ items
  ∧ base (el_content e') = base (el_content e)
  ∧ with_content (el_content e) e' = e.
Proof.
  revert e. induction items as [|x items IH]; intros e; cbn [foldl].
  - rewrite app_nil_r. by destruct e.
  - destruct (IH (with_content (Append (el_content e) x) e)) as (H1 & H2 & H3).
    rewrite H1, H2. cbn. rewrite <- app_assoc. split; [done |]. split; [done |].
    destruct e. cbn in *. 
    match goal with |- with_content _ ?t = _ => destruct t end.
    cbn in *. by injection H3 as -> -> -> -> ->.
Qed.

Lemma with_content_twice (c c' : content) (e : element) :
  with_content c (with_content c' e) = with_content c e.
Proof. by destruct e. Qed.

Lemma with_content_same (e : element) : with_content (el_content e) e = e.
Proof. by destruct e. Qed.

Lemma foldl_imap_pairs {E I} (h : I → E → E) (F : nat → string → I)
    (p : nat → string → nat * string) (l : list string) (e0 : E) :
  foldl (λ e ir, h (F ir.1 ir.2) e) e0 (imap p l)
    = foldl (λ e x, h x e) e0 (imap (λ i r, F (p i r).1 (p i r).2) l).
Proof.
  revert p e0. induction l as [|x l IH]; intros p e0; [done |].
  cbn. apply (IH (p ∘ S)).
Qed.

Lemma lower_ascii_table (c : ascii) : lower_of c (lower_ascii c) = true.
Proof. destruct c as [[] [] [] [] [] [] [] []]; vm_compute; reflexivity. Qed.

Lemma lower_of_functional (c d d' : ascii) :
  lower_of c d = true → lower_of c d' = true → d = d'.
Proof.
  unfold lower_of. destruct (list_find _ upper_letters) as [[i x]|].
  - intros H1%bool_decide_eq_true H2%bool_decide_eq_true. congruence.
  - intros H1%bool_decide_eq_true H2%bool_decide_eq_true. congruence.
Qed.

Lemma toLowerCase_table (s : string) : lower_case_of s (toLowerCase s).
Proof.
  unfold lower_case_of. induction s as [|c s IH]; cbn [toLowerCase list_ascii_of_string].
  - apply Forall2_nil_2.
  - apply Forall2_cons_2; [apply lower_ascii_table | exact IH].
Qed.

Lemma lower_case_of_toLowerCase (s low : string) :
  lower_case_of s low → low = toLowerCase s.
Proof.
  unfold lower_case_of. revert low.
  induction s as [|c s IH]; intros [|d low]; cbn [toLowerCase list_ascii_of_string];
    intros H; inversion H as [|? ? ? ? Hc Hs]; subst; [done |].
  f_equal.
  - exact (lower_of_functional c _ _ Hc (lower_ascii_table c)).
  - by apply IH.
Qed.

(** X10. For a set whose priority is a string of ASCII characters,
    [updateRecommendations] replaces what the list showed: an empty
    sequence gives the placeholder message, a sequence of n
    recommendations gives n children in the order received, each with the
    class of the priority with its letters A-Z in lower case; nothing else
    in the state changes.  When the set carries no sequence the state is
    left as it is. *)
Theorem recommendations_replace_the_list (s : state) (recs : RecommendationSet)
    (e : element) :
  document s !! "recommendationsList" = Some e →
  ascii_only (priority recs) →
  (recommendations recs = None → updateRecommendations recs s = Ret tt s)
  ∧ ∀ l, recommendations recs = Some l →
      ∃ e' low, updateRecommendations recs s
              = Ret tt (set_document (<["recommendationsList" := e']> (document s)) s)
            ∧ with_content (el_content e) e' = e
            ∧ lower_case_of (priority recs) low
            ∧ (l = [] → el_content e' = no_recommendations)
            ∧ (l ≠ [] → base (el_content e') = Html (Lit "")
                        ∧ children (el_content e') = imap (rec_item low) l).
Proof.
  intros He _. split.
  - intros Hn. unfold updateRecommendations, getElementById.
    by rewrite bind_gets, He, Hn.
  - intros l Hl. unfold updateRecommendations, getElementById.
    rewrite bind_gets, He, Hl, bind_update_element.
    set (low := toLowerCase (priority recs)).
    rewrite (bind_Ret _ _ _ _ _
               (forEach_update_element "recommendationsList"
                  (λ ir e, with_content
                     (Append (el_content e) (rec_item low ir.1 ir.2)) e)
                  (imap (λ index rec, (index, rec)) l) _)).
    state_simpl.
    set (e0 := with_content (Html (Lit "")) e).
    destruct (appended_children e0 (imap (rec_item low) l)) as (H1 & H2 & H3).
    set (d1 := foldl _ _ _).
    assert (d1 !! "recommendationsList"
            = Some (foldl (λ e x, with_content (Append (el_content e) x) e) e0
                      (imap (rec_item low) l))) as Hd1.
    { subst d1. rewrite lookup_foldl_alter, lookup_alter_eq, He. cbn. f_equal.
      exact (foldl_imap_pairs (λ x e, with_content (Append (el_content e) x) e)
               (rec_item low) _ _ _). }
    assert (∀ j, j ≠ "recommendationsList" → d1 !! j = document s !! j) as Hothers.
    { intros j Hj. subst d1. rewrite lookup_foldl_alter_ne by done.
      by rewrite lookup_alter_ne. }
    destruct l as [|x l].
    + rewrite bool_decide_true by done. cbn [imap foldl] in *.
      exists (with_content no_recommendations e), low.
      split; [| split; [| split; [| split]]].
      * unfold update_element, modify. cbn [final]. state_simpl.
        match goal with
        | |- Ret tt (set_document ?d _) = _ =>
            assert (d = <["recommendationsList" := with_content no_recommendations e]>
                          (document s)) as ->; [| reflexivity]
        end.
        apply map_eq. intros j. destruct (decide (j = "recommendationsList")) as [->|Hj].
        -- by rewrite lookup_alter_eq, Hd1, lookup_insert_eq.
        -- rewrite lookup_alter_ne, lookup_insert_ne, Hothers by done. done.
      * by rewrite with_content_twice, with_content_same.
      * apply toLowerCase_table.
      * done.
      * done.
    + rewrite bool_decide_false by done.
      exists (foldl (λ e x, with_content (Append (el_content e) x) e) e0
                (imap (rec_item low) (x :: l))), low.
      split; [| split; [| split; [| split]]].
      * match goal with
        | |- _ = Ret tt (set_document ?d' _) =>
            change (Ret tt (set_document d1 s) = Ret tt (set_document d' s));
            assert (d1 = d') as ->; [| reflexivity]
        end.
        apply map_eq. intros j. destruct (decide (j = "recommendationsList")) as [->|Hj].
        -- rewrite Hd1, lookup_insert_eq. reflexivity.
        -- rewrite lookup_insert_ne, Hothers by done. done.
      * rewrite <- (with_content_twice _ (el_content e0)), H3. subst e0.
        by rewrite with_content_twice, with_content_same.
      * apply toLowerCase_table.
      * done.
      * intros _. split; [by rewrite H2 | by rewrite H1].
Qed.

Lemma recommendations_replace_the_list_witness :
  ascii_only "High"
  ∧ ∃ e', updateRecommendations
            {| priority := "High"; recommendations := Some ["Rest"; "Drink water"] |} settled
            = Ret tt (set_document (<["recommendationsList" := e']> (document settled))
                        settled)
          ∧ children (el_content e')
              = [rec_item "high" 0 "Rest"; rec_item "high" 1 "Drink water"].
Proof.
  assert (ascii_only "High") as Hascii.
  { repeat (apply Forall_cons_2; [vm_compute; lia |]). apply Forall_nil_2. }
  split; [exact Hascii |].
  destruct (document settled !! "recommendationsList") as [e|] eqn:He;
    [| by vm_compute in He].
  destruct (proj2 (recommendations_replace_the_list settled
                     {| priority := "High"; recommendations := Some ["Rest"; "Drink water"] |}
                     e He Hascii) _ eq_refl) as (e' & low & Hrun & _ & Hlow & _ & Hne).
  apply lower_case_of_toLowerCase in Hlow. subst low.
  exists e'. split; [exact Hrun |]. by apply Hne.
Defined.

(** ** The timer table along a run *)

Section Relates.
Context (R : state → state → Prop).
Hypothesis R_refl : ∀ s, R s s.
Hypothesis R_trans : ∀ s1 s2 s3, R s1 s2 → R s2 s3 → R s1 s3.

Lemma relates_mret {A} (a : A) : relates R (mret a).
Proof. intros s. apply R_refl. Qed.

Lemma relates_throw {A} (e : error) : relates R (throw (A:=A) e).
Proof. intros s. apply R_refl. Qed.

Lemma relates_gets {A} (g : state → A) : relates R (gets g).
Proof. intros s. apply R_refl. Qed.

Lemma relates_modify (g : state → state) : (∀ s, R s (g s)) → relates R (modify g).
Proof. intros H s. apply H. Qed.

Lemma relates_bind {A C} (m : M A) (k : A → M C) :
  relates R m → (∀ a, relates R (k a)) → relates R (m ≫= k).
Proof.
  intros Hm Hk s. unfold mbind, M_bind. specialize (Hm s).
  destruct (m s) as [a s'|e s']; simpl in *; [| done].
  eapply R_trans; [exact Hm | apply Hk].
Qed.

Lemma relates_forEach {A} (l : list A) (k : A → M unit) :
  (∀ a, relates R (k a)) → relates R (forEach l k).
Proof.
  intros Hk. induction l as [|x l IH]; simpl.
  - apply relates_mret.
  - apply relates_bind; [apply Hk | by intros _].
Qed.

Lemma relates_try_catch_finally (body : M unit) (h : error → M unit) (fin : M unit) :
  relates R body → (∀ e, relates R (h e)) → relates R fin →
  relates R (try_catch_finally body h fin).
Proof.
  intros Hb Hh Hf s. unfold try_catch_finally.
  specialize (Hb s). destruct (body s) as [a s1|e s1]; simpl in *.
  - eapply R_trans; [exact Hb | apply Hf].
  - specialize (Hh e s1). destruct (h e s1) as [a s2|e2 s2]; simpl in *.
    + eapply R_trans; [| apply Hf]. by eapply R_trans.
    + specialize (Hf s2). destruct (fin s2); simpl in *;
        (eapply R_trans; [| exact Hf]); by eapply R_trans.
Qed.

Lemma relates_preserves {A B} (f : state → B) (m : M A) :
  (∀ s s', f s' = f s → R s s') → preserves f m → relates R m.
Proof. intros Hf Hm s. apply Hf, Hm. Qed.
End Relates.

Lemma adds_timeouts_refl s : adds_timeouts s s.
Proof.
  split; [done |]. split; [done |]. exists []. rewrite app_nil_r.
  split; [done |]. split; [by apply Forall_nil | apply NoDup_nil_2].
Qed.

Lemma adds_timeouts_trans s1 s2 s3 :
  adds_timeouts s1 s2 → adds_timeouts s2 s3 → adds_timeouts s1 s3.
Proof.
  intros (Hu1 & Hn1 & new1 & Ht1 & Hf1 & Hd1) (Hu2 & Hn2 & new2 & Ht2 & Hf2 & Hd2).
  split; [congruence |]. split; [lia |]. exists (new1 ++ new2).
  split; [by rewrite Ht2, Ht1, app_assoc |]. split.
  - apply Forall_app. split.
    + eapply Forall_impl; [exact Hf1 |]. intros t (? & ? & ?). repeat split; [done | lia..].
    + eapply Forall_impl; [exact Hf2 |]. intros t (? & ? & ?). repeat split; [done | lia..].
  - rewrite fmap_app. apply NoDup_app. split; [done |]. split; [| done].
    intros n (t1 & -> & Hin1)%list_elem_of_fmap (t2 & Heq & Hin2)%list_elem_of_fmap.
    rewrite Forall_forall in Hf1, Hf2.
    specialize (Hf1 _ Hin1). specialize (Hf2 _ Hin2). lia.
Qed.

Lemma adds_timeouts_same s s' : timer_view s' = timer_view s → adds_timeouts s s'.
Proof.
  intros [= Hu Hn Ht]. split; [done |]. split; [lia |]. exists [].
  rewrite app_nil_r. split; [done |]. split; [by apply Forall_nil | apply NoDup_nil_2].
Qed.

Lemma relates_setTimeout c delay : relates adds_timeouts (setTimeout c delay).
Proof.
  intros s. unfold adds_timeouts, setTimeout. cbn [final]. state_simpl.
  split; [done |]. split; [lia |].
  eexists [_]. split; [reflexivity |]. split.
  - apply Forall_cons. split; [| by apply Forall_nil]. cbn [period tid].
    split; [done |]. split; lia.
  - apply NoDup_singleton.
Qed.

Ltac relate_step :=
  match goal with
  | |- relates _ (mret _) => apply relates_mret; apply adds_timeouts_refl
  | |- relates _ (throw _) => apply relates_throw; apply adds_timeouts_refl
  | |- relates _ (gets _) => apply relates_gets; apply adds_timeouts_refl
  | |- relates _ (getElementById _) => apply relates_gets; apply adds_timeouts_refl
  | |- relates _ (setTimeout _ _) => apply relates_setTimeout
  | |- relates _ (modify _) =>
      apply relates_modify; intros; apply adds_timeouts_same; reflexivity
  | |- relates _ (update_element _ _) =>
      apply relates_modify; intros; apply adds_timeouts_same; reflexivity
  | |- relates _ (fetch _ _) =>
      apply relates_modify; intros; apply adds_timeouts_same; reflexivity
  | |- relates _ (_ ≫= _) =>
      apply relates_bind; [exact adds_timeouts_trans | | intros ?]
  | |- relates _ (forEach _ _) =>
      apply relates_forEach;
      [exact adds_timeouts_refl | exact adds_timeouts_trans | intros ?]
  | |- relates _ (try_catch_finally _ _ _) =>
      apply relates_try_catch_finally; [exact adds_timeouts_trans | | intros ? |]
  | |- relates _ (if ?b then _ else _) => destruct b
  | |- relates _ (match ?x with _ => _ end) => destruct x
  | |- relates _ (let _ := _ in _) => cbv zeta
  end.

Ltac relate_same :=
  apply (relates_preserves adds_timeouts timer_view); [exact adds_timeouts_same |].

Lemma showAlert_adds ty msg : relates adds_timeouts (showAlert ty msg).
Proof. unfold showAlert. repeat relate_step. Qed.

Lemma updateMetrics_adds hd : relates adds_timeouts (updateMetrics hd).
Proof. unfold updateMetrics. repeat relate_step. Qed.

Lemma updateHealthStatus_adds ar hd : relates adds_timeouts (updateHealthStatus ar hd).
Proof.
  unfold updateHealthStatus.
  repeat match goal with
         | |- relates _ (showAlert _ _) => apply showAlert_adds
         | _ => relate_step
         end.
Qed.

Lemma updateHealthData_resume_adds r : relates adds_timeouts (updateHealthData_resume r).
Proof.
  unfold updateHealthData_resume, await_fetch, await_json.
  repeat match goal with
         | |- relates _ (showAlert _ _) => apply showAlert_adds
         | |- relates _ (updateMetrics _) => apply updateMetrics_adds
         | |- relates _ (updateHealthStatus _ _) => apply updateHealthStatus_adds
         | |- relates _ (updateRecommendations _) =>
             relate_same; by apply updateRecommendations_frame
         | |- relates _ (updateModelMetrics _) =>
             relate_same; by apply updateModelMetrics_frame
         | |- relates _ (updateChart _) => relate_same; by apply updateChart_frame
         | |- relates _ updateLastUpdateTime =>
             relate_same; by apply updateLastUpdateTime_frame
         | |- relates _ (updateConnectionStatus _) =>
             relate_same; by apply updateConnectionStatus_frame
         | |- relates _ (showLoading _) => relate_same; by apply showLoading_frame
         | _ => relate_step
         end.
Qed.

Lemma resume_of_adds b o r : relates adds_timeouts (resume_of b o r).
Proof.
  destruct b; cbn [resume_of];
    unfold retrainModel_resume, triggerNormalScan_resume, triggerEmergencyScan_resume,
      stopMonitoring_resume, await_fetch, await_json;
    repeat match goal with
           | |- relates _ (showAlert _ _) => apply showAlert_adds
           | _ => relate_step
           end.
Qed.

Lemma forallb_Forall {A} (f : A → bool) (l : list A) :
  forallb f l = true ↔ Forall (λ x, f x = true) l.
Proof.
  induction l as [|x l IH]; cbn [forallb].
  - split; [intros _; by apply Forall_nil | done].
  - rewrite andb_true_iff, IH, Forall_cons. done.
Qed.

Lemma loop_single_spec (s : state) :
  loop_single s = true ↔
    updateTimer s ≠ Some 0%nat
    ∧ Forall (λ t, ((0 < tid t)%nat ∧ (tid t < nextTimer s)%nat)
                   ∧ (is_interval t = true → updateTimer s = Some (tid t))) (timers s)
    ∧ NoDup (tid <$> timers s)
    ∧ (0 < nextTimer s)%nat.
Proof.
  unfold loop_single, intervals_owned.
  rewrite !andb_true_iff, !bool_decide_eq_true, Nat.ltb_lt, forallb_Forall.
  assert (Forall (λ t, (0 <? tid t)%nat && (tid t <? nextTimer s)%nat
                       && (negb (is_interval t)
                           || bool_decide (updateTimer s = Some (tid t))) = true)
            (timers s)
          ↔ Forall (λ t, ((0 < tid t)%nat ∧ (tid t < nextTimer s)%nat)
                         ∧ (is_interval t = true → updateTimer s = Some (tid t)))
              (timers s)) as ->; [| tauto].
  apply Forall_proper; [| done]. intros t.
  rewrite !andb_true_iff, !Nat.ltb_lt, orb_true_iff, negb_true_iff, bool_decide_eq_true.
  destruct (is_interval t); intuition congruence.
Qed.

Lemma loop_single_view (s s' : state) :
  timer_view s' = timer_view s → loop_single s' = loop_single s.
Proof.
  intros [= Hu Hn Ht]. unfold loop_single, intervals_owned. by rewrite Hu, Hn, Ht.
Qed.

Lemma loop_single_adds (s s' : state) :
  loop_single s = true → adds_timeouts s s' → loop_single s' = true.
Proof.
  rewrite !loop_single_spec.
  intros (Hz & Hown & Hdup & Hpos) (Hu & Hn & new & Ht & Hnew & Hdnew).
  rewrite Hu, Ht. split; [done |]. split; [| split; [| lia]].
  - apply Forall_app. split.
    + eapply Forall_impl; [exact Hown |]. intros t [[? ?] ?].
      split; [split; lia | done].
    + eapply Forall_impl; [exact Hnew |]. intros t (Hp & ? & ?).
      split; [split; lia |]. unfold is_interval. by rewrite Hp.
  - rewrite fmap_app. apply NoDup_app. split; [done |]. split; [| done].
    intros n (t1 & -> & Hin1)%list_elem_of_fmap (t2 & Heq & Hin2)%list_elem_of_fmap.
    rewrite Forall_forall in Hown, Hnew.
    destruct (Hown _ Hin1) as [[? ?] _]. destruct (Hnew _ Hin2) as (_ & ? & _). lia.
Qed.

Lemma next_timer_elem (l : list timer) (t : timer) : next_timer l = Some t → t ∈ l.
Proof.
  revert t. induction l as [|u l IH]; intros t; cbn [next_timer]; [done |].
  destruct (next_timer l) as [v|].
  - intros [= <-]. destruct (due v <? due u).
    + apply elem_of_cons. right. by apply IH.
    + apply elem_of_cons. by left.
  - intros [= <-]. apply elem_of_cons. by left.
Qed.

Lemma run_callback_view c : preserves timer_view (run_callback c).
Proof.
  destruct c; cbn [run_callback].
  - unfold updateHealthData, showLoading. frame.
  - frame.
  - frame.
Qed.

Lemma NoDup_tid_filter (Q : timer → Prop) `{!∀ t, Decision (Q t)} (l : list timer) :
  NoDup (tid <$> l) → NoDup (tid <$> filter Q l).
Proof.
  induction l as [|u l IH]; [done |]. rewrite filter_cons, fmap_cons.
  intros [Hnotin Hl]%NoDup_cons. destruct (decide (Q u)); [| by apply IH].
  rewrite fmap_cons. apply NoDup_cons. split; [| by apply IH].
  intros (v & Hv & Hin)%list_elem_of_fmap. apply Hnotin.
  apply list_elem_of_fmap. exists v. split; [done |].
  by apply list_elem_of_filter in Hin as [_ ?].
Qed.

Lemma Forall_filter_keep {A} (P Q : A → Prop) `{!∀ x, Decision (Q x)} (l : list A) :
  Forall P l → Forall P (filter Q l).
Proof.
  rewrite !Forall_forall. intros HP x [_ Hx]%list_elem_of_filter. by apply HP.
Qed.

Lemma fire_single (s : state) (t : timer) :
  loop_single s = true → next_timer (timers s) = Some t →
  loop_single (final (fire t s)) = true.
Proof.
  intros Hs Ht%next_timer_elem. unfold fire. rewrite !bind_modify.
  erewrite loop_single_view by apply run_callback_view.
  revert Hs. rewrite !loop_single_spec. state_simpl.
  intros (Hz & Hown & Hdup & Hpos). split; [done |]. split; [| split; [| done]].
  - unfold rearm. destruct (period t) as [p|] eqn:Hp.
    + apply Forall_fmap. eapply Forall_impl; [exact Hown |].
      intros u [Hu Ho]. cbn. case_bool_decide as Hid; [| done].
      cbn [tid]. rewrite <- Hid. split; [done |]. intros _.
      rewrite Forall_forall in Hown. destruct (Hown _ Ht) as [_ Hot].
      rewrite Hid. apply Hot. unfold is_interval. by rewrite Hp.
    + by apply Forall_filter_keep.
  - unfold rearm. destruct (period t) as [p|] eqn:Hp.
    + rewrite <- list_fmap_compose.
      erewrite list_fmap_ext; [exact Hdup |].
      intros i u _. cbn. by case_bool_decide.
    + by apply NoDup_tid_filter.
Qed.

Lemma stopDataUpdates_single (s : state) :
  loop_single s = true →
  let s' := final (stopDataUpdates s) in
  loop_single s' = true ∧ updateTimer s' = None ∧ intervals s' = [].
Proof.
  intros Hs s'.
  assert (∀ b, preserves timer_view (updateConnectionStatus b)) as Hconn
    by (intros; by apply updateConnectionStatus_frame).
  assert (∃ s1, timer_view s' = timer_view s1
                ∧ loop_single s1 = true ∧ updateTimer s1 = None) as (s1 & Hv & H1 & Hu1).
  { subst s'. unfold stopDataUpdates. rewrite bind_gets.
    pose proof Hs as (Hz & Hown & Hdup & Hpos)%loop_single_spec.
    destruct (updateTimer s) as [[|n]|] eqn:Hu; [done | |]; cbn [truthy_id default].
    - rewrite bind_assoc, bind_clearInterval, bind_modify.
      eexists. split; [apply Hconn |]. split; [| done].
      apply loop_single_spec. state_simpl. split; [done |]. split; [| split; [| done]].
      + rewrite Forall_forall in Hown |- *.
        intros t [Hne Hin]%list_elem_of_filter. destruct (Hown _ Hin) as [Hb Ho].
        split; [done |]. intros Hi. specialize (Ho Hi). unfold id in Hne. congruence.
      + by apply NoDup_tid_filter.
    - rewrite bind_ret. exists s. split; [apply Hconn |]. done. }
  injection Hv as Hu Hn Ht.
  split; [by erewrite loop_single_view; [exact H1 | unfold timer_view; congruence] |].
  split; [congruence |].
  unfold intervals. rewrite Ht.
  apply loop_single_spec in H1 as (_ & Hown & _ & _). rewrite Hu1 in Hown.
  revert Hown. generalize (timers s1). intros l.
  induction l as [|t l IH]; [done |].
  intros [[_ Ho] Hl]%Forall_cons. rewrite filter_cons.
  destruct (decide (is_interval t = true)) as [Hi|Hi]; [by specialize (Ho Hi) | by apply IH].
Qed.

Lemma startDataUpdates_single (s : state) :
  loop_single s = true →
  let s' := final (startDataUpdates s) in
  loop_single s' = true ∧ updateTimer s' = Some (nextTimer s)
  ∧ intervals s' = [poll_timer s].
Proof.
  intros Hs s'.
  assert (∀ b, preserves timer_view (updateConnectionStatus b)) as Hconn
    by (intros; by apply updateConnectionStatus_frame).
  pose proof Hs as (Hz & Hown & Hdup & Hpos)%loop_single_spec.
  assert (∃ l, timer_view s' = (Some (nextTimer s), S (nextTimer s), l ++ [poll_timer s])
               ∧ Forall (λ t, ((0 < tid t)%nat ∧ (tid t < nextTimer s)%nat)
                              ∧ is_interval t = false) l
               ∧ NoDup (tid <$> l)) as (l & Hv & Hl & Hdl).
  { subst s'. unfold startDataUpdates. rewrite bind_gets.
    destruct (updateTimer s) as [[|n]|] eqn:Hu; [done | |]; cbn [truthy_id default].
    - rewrite bind_clearInterval.
      erewrite bind_Ret by reflexivity. rewrite bind_modify, Hconn.
      eexists. split; [reflexivity |]. split; [| by apply NoDup_tid_filter].
      rewrite Forall_forall in Hown |- *.
      intros t [Hne Hin]%list_elem_of_filter. destruct (Hown _ Hin) as [Hb Ho].
      split; [done |]. destruct (is_interval t); [| done].
      specialize (Ho eq_refl). unfold id in Hne. congruence.
    - rewrite bind_ret. erewrite bind_Ret by reflexivity. rewrite bind_modify, Hconn.
      eexists. split; [reflexivity |]. split; [| done].
      eapply Forall_impl; [exact Hown |]. intros t [Hb Ho].
      split; [done |]. destruct (is_interval t); [| done]. by specialize (Ho eq_refl). }
  injection Hv as Hu Hn Ht.
  split; [| split; [done |]].
  - apply loop_single_spec. rewrite Hu, Hn, Ht.
    split; [intros [= ?]; lia |]. split; [| split; [| lia]].
    + apply Forall_app. split.
      * eapply Forall_impl; [exact Hl |]. intros t [[? ?] Hi].
        split; [split; lia |]. by rewrite Hi.
      * apply Forall_cons. split; [| by apply Forall_nil]. cbn [poll_timer tid].
        split; [split; lia | done].
    + rewrite fmap_app. apply NoDup_app. split; [done |]. split; [| apply NoDup_singleton].
      intros n (t1 & -> & Hin1)%list_elem_of_fmap Hn2.
      apply list_elem_of_singleton in Hn2. cbn in Hn2.
      rewrite Forall_forall in Hl. destruct (Hl _ Hin1) as [[? ?] _]. lia.
  - unfold intervals. rewrite Ht, filter_app.
    assert (filter (λ t, is_interval t = true) l = []) as ->.
    { clear Hdl Ht. induction l as [|t l IH]; [done |].
      apply Forall_cons in Hl as [[_ Hi] Hl]. rewrite filter_cons.
      destruct (decide (is_interval t = true)); [congruence | by apply IH]. }
    done.
Qed.

Lemma onClick_view b : preserves timer_view (onClick b).
Proof.
  destruct b; cbn [onClick];
    unfold retrainModel, triggerNormalScan, triggerEmergencyScan, stopMonitoring; frame.
Qed.

Lemma step_single (ev : event) (s : state) :
  loop_single s = true → loop_single (step ev s) = true.
Proof.
  intros Hs. destruct ev as [dt| |r|i r|b|hidden]; cbn [step].
  - done.
  - destruct (next_timer (timers s)) as [t|] eqn:Ht; [| done]. by apply fire_single.
  - destruct (take_health (pending s)) as [l|]; [| done].
    eapply loop_single_adds; [| apply updateHealthData_resume_adds]. done.
  - destruct (pending s !! i) as [[|o|o|o|o]|]; try done.
    + eapply loop_single_adds; [| apply (resume_of_adds RetrainBtn)]. done.
    + eapply loop_single_adds; [| apply (resume_of_adds NormalScanBtn)]. done.
    + eapply loop_single_adds; [| apply (resume_of_adds EmergencyScanBtn)]. done.
    + eapply loop_single_adds; [| apply (resume_of_adds StopBtn)]. done.
  - destruct (document s !! button_id b) as [e|]; [| done].
    destruct (el_disabled e); [done |].
    by erewrite loop_single_view by apply onClick_view.
  - destruct hidden; cbn [onVisibilityChange].
    + by apply stopDataUpdates_single.
    + by apply startDataUpdates_single.
Qed.

Lemma run_single (evs : list event) (s : state) :
  loop_single s = true → loop_single (run evs s) = true.
Proof.
  revert s. induction evs as [|ev evs IH]; intros s Hs; [done |].
  apply IH. by apply step_single.
Qed.

Lemma fresh_id_no_interval (o : option nat) (n : nat) (l : list timer) :
  Forall (λ t, is_interval t = true → o = Some (tid t)) l → o = Some n →
  n ∉ tid <$> l → filter (λ t, is_interval t = true) l = [].
Proof.
  intros Hl Ho Hn. induction l as [|u l IH]; [done |].
  apply Forall_cons in Hl as [Hu Hl]. rewrite filter_cons.
  destruct (decide (is_interval u = true)) as [Hiu|Hiu].
  - exfalso. apply Hn. specialize (Hu Hiu).
    apply list_elem_of_fmap. exists u. split; [congruence | apply elem_of_cons; by left].
  - apply IH; [done |]. intros (v & Hv & Hin)%list_elem_of_fmap. apply Hn.
    apply list_elem_of_fmap. exists v. split; [done | apply elem_of_cons; by right].
Qed.

Lemma single_interval (o : option nat) (l : list timer) :
  Forall (λ t, is_interval t = true → o = Some (tid t)) l → NoDup (tid <$> l) →
  (length (filter (λ t, is_interval t = true) l) ≤ 1)%nat.
Proof.
  induction l as [|t l IH]; [cbn; lia |].
  intros [Ht Hl]%Forall_cons Hd.
  pose proof (proj1 (NoDup_cons (tid t) (fmap (M:=list) tid l)) Hd) as [Hnotin Hdup].
  rewrite filter_cons.
  destruct (decide (is_interval t = true)) as [Hi|Hi]; [| by apply IH].
  rewrite (fresh_id_no_interval o (tid t) l Hl (Ht Hi) Hnotin). cbn. lia.
Qed.

(** X11. The polling loop is never doubled.  From a state in which armed
    intervals belong to [this.updateTimer] and timer ids are distinct,
    after any sequence of events (time passing, timers firing, replies,
    clicks, the page hidden or shown) the same holds, at most one interval
    is armed, and it is the one [this.updateTimer] names. *)
Theorem polling_loop_stays_single (s : state) (evs : list event) :
  loop_single s = true →
  let s' := run evs s in
  loop_single s' = true
  ∧ (length (intervals s') ≤ 1)%nat
  ∧ Forall (λ t, updateTimer s' = Some (tid t)) (intervals s').
Proof.
  intros Hs s'. pose proof (run_single evs s Hs) as Hs'. fold s' in Hs'.
  split; [done |].
  apply loop_single_spec in Hs' as (_ & Hown & Hdup & _). split.
  - eapply single_interval; [| exact Hdup].
    eapply Forall_impl; [exact Hown |]. by intros t [_ ?].
  - unfold intervals. rewrite Forall_forall in Hown |- *.
    intros t [Hi Hin]%list_elem_of_filter. by apply Hown.
Qed.

Lemma polling_loop_stays_single_witness :
  loop_single booted = true
  ∧ (length (intervals (run [VisibilityChange false; Wait 5000; TimerFires;
                             VisibilityChange false; Click RetrainBtn] booted)) ≤ 1)%nat.
Proof.
  split; [vm_compute; reflexivity |].
  apply (polling_loop_stays_single booted
           [VisibilityChange false; Wait 5000; TimerFires;
            VisibilityChange false; Click RetrainBtn]).
  vm_compute; reflexivity.
Defined.

(** X12. Arming the loop replaces the interval that was armed: after
    [startDataUpdates] exactly one interval is armed, the new one, due one
    period later, and [this.updateTimer] names it; calling it again leaves
    one interval again, not two. *)
Theorem arming_replaces_the_interval (s : state) :
  loop_single s = true →
  let started := final (startDataUpdates s) in
  let again := final (startDataUpdates started) in
  intervals started = [poll_timer s]
  ∧ updateTimer started = Some (nextTimer s)
  ∧ intervals again = [poll_timer started]
  ∧ updateTimer again = Some (nextTimer started).
Proof.
  intros Hs started again.
  destruct (startDataUpdates_single s Hs) as (Hs1 & Hu1 & Hi1).
  destruct (startDataUpdates_single started Hs1) as (_ & Hu2 & Hi2).
  exact (conj Hi1 (conj Hu1 (conj Hi2 Hu2))).
Qed.


Lemma arming_replaces_the_interval_witness :
  loop_single settled = true
  ∧ intervals (final (startDataUpdates settled)) = [poll_timer settled].
Proof.
  assert (loop_single settled = true) as H by (vm_compute; reflexivity).
  exact (conj H (proj1 (arming_replaces_the_interval settled H))).
Defined.

(** ** Construction *)

Lemma constructor_run (s : state) :
  updateTimer s = None →
  constructor s
    = (updateConnectionStatus true;; updateHealthData)
        (set_updateTimer (Some (nextTimer s))
           (set_timers (S (nextTimer s)) (timers s ++ [poll_timer s])
              (set_chart (if present (document s !! "healthChart")
                          then Some empty_chart else None)
                 (set_emergencyMode false
                    (set_lastUpdateTime None (set_isUpdating false s)))))).
Proof.
  intros Hu. unfold constructor, init, initChart, startDataUpdates, getElementById.
  run_method. state_simpl.
  destruct (document s !! "healthChart"); cbn [present negb];
    run_method; state_simpl; rewrite Hu; cbn [truthy_id]; run_method;
    (erewrite bind_Ret by reflexivity); run_method; reflexivity.
Qed.

Lemma updateConnectionStatus_throws (b : bool) (s : state) :
  indicator_ok s = false →
  ∃ e d, updateConnectionStatus b s = Exn e (set_document d s).
Proof.
  unfold indicator_ok, updateConnectionStatus, getElementById. rewrite bind_gets.
  destruct (document s !! "connectionStatus") as [el|]; [| done].
  intros Hp. rewrite bind_update_element. destruct (el_prevClass el); [done |].
  by eexists _, _.
Qed.

(** X13. Constructing the dashboard on a fresh object resets the fields,
    creates the chart when the canvas is on the page, arms the polling
    interval and, when the connection indicator has its icon (or is not on
    the page), issues the first snapshot request.  When the indicator is
    on the page without its icon, [startDataUpdates] throws after arming
    the interval and the first request is not issued. *)
Theorem constructor_starts_the_dashboard (s : state) :
  updateTimer s = None →
  let s' := final (constructor s) in
  chart s' = (if present (document s !! "healthChart") then Some empty_chart else None)
  ∧ lastUpdateTime s' = None ∧ emergencyMode s' = false
  ∧ updateTimer s' = Some (nextTimer s)
  ∧ timers s' = timers s ++ [poll_timer s]
  ∧ (if indicator_ok s
     then threw (constructor s) = false ∧ isUpdating s' = true
          ∧ sent s' = sent s ++ ["GET /api/health-data"]
          ∧ pending s' = pending s ++ [HealthDataReq]
     else threw (constructor s) = true ∧ isUpdating s' = false
          ∧ sent s' = sent s ∧ pending s' = pending s).
Proof.
  intros Hu s'. subst s'. rewrite (constructor_run s Hu).
  match goal with |- context [(_ ≫= _) ?s1] => set (s1' := s1) end.
  assert (indicator_ok s1' = indicator_ok s) as Hi by reflexivity.
  destruct (indicator_ok s) eqn:Hok.
  - rewrite (bind_Ret _ _ _ _ _ (updateConnectionStatus_run true s1' Hi)).
    unfold updateHealthData. rewrite bind_gets. subst s1'. state_simpl.
    rewrite bind_modify, (bind_Ret _ _ _ _ _ (showLoading_run true _)).
    unfold fetch, modify. cbn [final threw]. state_simpl. done.
  - destruct (updateConnectionStatus_throws true s1' Hi) as (e & d & Hthrow).
    rewrite (bind_Exn _ _ _ _ _ Hthrow). subst s1'. cbn [final threw]. state_simpl. done.
Qed.

Lemma constructor_starts_the_dashboard_witness :
  updateTimer loaded = None
  ∧ sent booted = ["GET /api/health-data"] ∧ timers booted = [poll_timer loaded].
Proof.
  split; [reflexivity |].
  pose proof (constructor_starts_the_dashboard loaded eq_refl) as (_ & _ & _ & _ & Ht & Hs).
  change (indicator_ok loaded) with true in Hs. cbv iota in Hs.
  destruct Hs as (_ & _ & Hs & _). exact (conj Hs Ht).
Defined.

(** ** The loading overlay *)

Lemma overlay_tracks_view (s s' : state) :
  overlay_view s' = overlay_view s → overlay_tracks s' = overlay_tracks s.
Proof. intros [= Hu Ho]. unfold overlay_tracks. by rewrite Hu, Ho. Qed.

Ltac frame_overlay :=
  repeat first
    [ frame_step
    | apply preserves_modify; intros; cbv beta; unfold overlay_view, overlay_shown;
      state_simpl; rewrite ?lookup_alter_ne by done; reflexivity ].

Lemma resume_of_overlay b o r : preserves overlay_view (resume_of b o r).
Proof.
  destruct b; cbn [resume_of];
    unfold retrainModel_resume, triggerNormalScan_resume, triggerEmergencyScan_resume,
      stopMonitoring_resume, await_fetch, await_json, showAlert;
    frame_overlay.
Qed.

Lemma onClick_overlay b : preserves overlay_view (onClick b).
Proof.
  destruct b; cbn [onClick];
    unfold retrainModel, triggerNormalScan, triggerEmergencyScan, stopMonitoring;
    frame_overlay.
Qed.

Lemma onVisibilityChange_overlay hidden : preserves overlay_view (onVisibilityChange hidden).
Proof.
  destruct hidden; cbn [onVisibilityChange];
    unfold stopDataUpdates, startDataUpdates, updateConnectionStatus; frame_overlay.
Qed.

Lemma show_in_classList_add (e : element) :
  bool_decide ("show" ∈ el_className (classList_add "show" e)) = true.
Proof.
  apply bool_decide_eq_true. unfold classList_add. case_bool_decide as H; [done |].
  destruct e. cbn. apply elem_of_app. right. apply elem_of_cons. by left.
Qed.

Lemma show_in_classList_remove (c : string) (e : element) :
  bool_decide ("show" ∈ el_className (classList_remove c e))
    = bool_decide ("show" ∈ el_className e) && bool_decide (c ≠ "show").
Proof.
  unfold classList_remove. destruct e as [? cl ? ? ? ?]. cbn.
  apply eq_true_iff_eq.
  rewrite andb_true_iff, !bool_decide_eq_true, list_elem_of_filter.
  intuition congruence.
Qed.

Lemma showLoading_overlay (b : bool) (s : state) :
  let s' := final (showLoading b s) in
  isUpdating s' = isUpdating s
  ∧ overlay_shown s' = (λ _, b) <$> overlay_shown s.
Proof.
  cbv zeta. rewrite showLoading_run. cbn [final]. state_simpl. split; [done |].
  unfold overlay_shown. state_simpl. rewrite lookup_alter_eq.
  destruct (document s !! "loadingOverlay") as [e|]; [| done]. cbn. f_equal.
  destruct b.
  - apply show_in_classList_add.
  - rewrite show_in_classList_remove.
    rewrite (bool_decide_false ("show" ≠ "show")) by (intros H; by apply H).
    apply andb_false_r.
Qed.

Lemma updateHealthData_overlay (s : state) :
  overlay_tracks s = true → overlay_tracks (final (updateHealthData s)) = true.
Proof.
  intros Hs. unfold updateHealthData. rewrite bind_gets.
  destruct (isUpdating s) eqn:Hu; [done |].
  rewrite bind_modify.
  destruct (showLoading_overlay true (set_isUpdating true s)) as [H1 H2].
  rewrite showLoading_run in H1, H2. cbn [final] in H1, H2.
  rewrite (bind_Ret _ _ _ _ _ (showLoading_run true _)). unfold fetch, modify. cbn [final].
  unfold overlay_tracks, overlay_shown in *. state_simpl. state_simpl_in H2.
  rewrite H2. by destruct (document s !! "loadingOverlay").
Qed.

Lemma updateHealthData_resume_overlay (r : reply Snapshot) (s : state) :
  overlay_tracks (final (updateHealthData_resume r s)) = true.
Proof.
  unfold updateHealthData_resume.
  match goal with
  | |- context [try_catch_finally ?B ?H ?F s] =>
      destruct (try_catch_finally_final B H F s) as [s1 ->]
  end.
  { apply returns_bind; [apply showLoading_returns | intros; apply returns_modify]. }
  destruct (showLoading_overlay false s1) as [H1 H2].
  rewrite showLoading_run in H1, H2. cbn [final] in H1, H2.
  rewrite (bind_Ret _ _ _ _ _ (showLoading_run false _)). unfold modify. cbn [final].
  unfold overlay_tracks, overlay_shown in *. state_simpl. state_simpl_in H2.
  rewrite H2. by destruct (document s1 !! "loadingOverlay").
Qed.

Lemma run_callback_overlay (c : callback) (s : state) :
  overlay_tracks s = true → overlay_tracks (final (run_callback c s)) = true.
Proof.
  intros Hs. destruct c as [| |id]; cbn [run_callback].
  - by apply updateHealthData_overlay.
  - erewrite overlay_tracks_view; [exact Hs |].
    unfold update_element, modify. cbn [final]. unfold overlay_view, overlay_shown.
    state_simpl. by rewrite lookup_alter_ne.
  - erewrite overlay_tracks_view; [exact Hs |].
    unfold update_element, modify. cbn [final]. unfold overlay_view, overlay_shown.
    state_simpl. f_equal. destruct (decide (id = "loadingOverlay")) as [->|Hne].
    + rewrite lookup_alter_eq. destruct (document s !! "loadingOverlay") as [e|]; [| done].
      cbn [fmap option_fmap option_map]. f_equal. rewrite show_in_classList_remove.
      rewrite (bool_decide_true ("updated" ≠ "show")) by done. apply andb_true_r.
    + by rewrite lookup_alter_ne.
Qed.

Lemma step_overlay (ev : event) (s : state) :
  overlay_tracks s = true → overlay_tracks (step ev s) = true.
Proof.
  intros Hs. destruct ev as [dt| |r|i r|b|hidden]; cbn [step].
  - done.
  - destruct (next_timer (timers s)) as [t|]; [| done].
    unfold fire. rewrite !bind_modify. by apply run_callback_overlay.
  - destruct (take_health (pending s)) as [l|]; [| done].
    apply updateHealthData_resume_overlay.
  - destruct (pending s !! i) as [[|o|o|o|o]|]; try done.
    + by erewrite overlay_tracks_view by apply (resume_of_overlay RetrainBtn).
    + by erewrite overlay_tracks_view by apply (resume_of_overlay NormalScanBtn).
    + by erewrite overlay_tracks_view by apply (resume_of_overlay EmergencyScanBtn).
    + by erewrite overlay_tracks_view by apply (resume_of_overlay StopBtn).
  - destruct (document s !! button_id b) as [e|]; [| done].
    destruct (el_disabled e); [done |].
    by erewrite overlay_tracks_view by apply onClick_overlay.
  - by erewrite overlay_tracks_view by apply onVisibilityChange_overlay.
Qed.

(** X14. The loading overlay is shown exactly while a snapshot request is
    in flight.  If the overlay agrees with [isUpdating] and [isUpdating]
    with the pending requests, then after any sequence of events the
    overlay, when on the page, carries the class [show] if and only if one
    [/api/health-data] request awaits its reply; after any reply to that
    request the overlay is hidden, whatever the state was. *)
Theorem overlay_shown_while_fetching (s : state) (evs : list event) (r : reply Snapshot) :
  overlay_tracks s = true → flag_tracks_fetch s = true →
  let s' := run evs s in
  overlay_tracks s' = true
  ∧ (∀ b, overlay_shown s' = Some b → b = (in_flight (pending s') =? 1)%nat)
  ∧ (∀ b, overlay_shown (final (updateHealthData_resume r s')) = Some b → b = false).
Proof.
  intros Ho Hf s'.
  assert (overlay_tracks s' = true) as Ho'.
  { subst s'. revert s Ho Hf. induction evs as [|ev evs IH]; intros s Ho Hf; [done |].
    apply IH; [by apply step_overlay | by apply step_flag]. }
  pose proof (run_flag evs s Hf) as Hf'. fold s' in Hf'.
  split; [done |]. split.
  - intros b Hb. unfold overlay_tracks in Ho'. rewrite Hb in Ho'.
    apply bool_decide_eq_true in Ho'. subst b.
    unfold flag_tracks_fetch in Hf'. destruct (isUpdating s'); [done |].
    apply Nat.eqb_eq in Hf'. by rewrite Hf'.
  - intros b Hb. pose proof (updateHealthData_resume_overlay r s') as Hr.
    unfold overlay_tracks in Hr. rewrite Hb in Hr. apply bool_decide_eq_true in Hr.
    rewrite Hr. apply updateHealthData_resume_clears.
Qed.

Lemma overlay_shown_while_fetching_witness :
  overlay_tracks booted = true ∧ flag_tracks_fetch booted = true
  ∧ overlay_tracks (run [Click StopBtn; Wait 5000; TimerFires] booted) = true.
Proof.
  assert (overlay_tracks booted = true) as Ho by (vm_compute; reflexivity).
  assert (flag_tracks_fetch booted = true) as Hf by (vm_compute; reflexivity).
  exact (conj Ho (conj Hf
           (proj1 (overlay_shown_while_fetching booted
                     [Click StopBtn; Wait 5000; TimerFires]
                     (NetworkError (Lit "offline")) Ho Hf)))).
Defined.

(** ** What only a snapshot changes *)

Lemma resume_of_readings b o r : preserves readings (resume_of b o r).
Proof.
  destruct b; cbn [resume_of];
    unfold retrainModel_resume, triggerNormalScan_resume, triggerEmergencyScan_resume,
      stopMonitoring_resume, await_fetch, await_json, showAlert; frame.
Qed.

Lemma onClick_readings b : preserves readings (onClick b).
Proof.
  destruct b; cbn [onClick];
    unfold retrainModel, triggerNormalScan, triggerEmergencyScan, stopMonitoring; frame.
Qed.

Lemma run_callback_readings c : preserves readings (run_callback c).
Proof.
  destruct c; cbn [run_callback]; [unfold updateHealthData, showLoading |..]; frame.
Qed.

Lemma onVisibilityChange_readings hidden : preserves readings (onVisibilityChange hidden).
Proof.
  destruct hidden; cbn [onVisibilityChange];
    unfold stopDataUpdates, startDataUpdates, updateConnectionStatus; frame.
Qed.

(** X15. Only the reply to a snapshot request changes [emergencyMode],
    [lastUpdateTime] and the chart: a timer firing (the polling tick
    included, which only issues the request), the reply to a retrain,
    scan or stop request, a click (the emergency scan button included) and
    a visibility change leave the three as they were. *)
Theorem only_snapshots_change_readings (s : state) (ev : event) :
  is_snapshot_reply ev = false →
  emergencyMode (step ev s) = emergencyMode s
  ∧ lastUpdateTime (step ev s) = lastUpdateTime s
  ∧ chart (step ev s) = chart s.
Proof.
  intros Hev.
  assert (readings (step ev s) = readings s) as [= -> -> ->]; [| done].
  destruct ev as [dt| |r|i r|b|hidden]; cbn [step]; try done.
  - destruct (next_timer (timers s)) as [t|]; [| done].
    unfold fire. rewrite !bind_modify. by rewrite run_callback_readings.
  - destruct (pending s !! i) as [[|o|o|o|o]|]; try done.
    + by rewrite (resume_of_readings RetrainBtn).
    + by rewrite (resume_of_readings NormalScanBtn).
    + by rewrite (resume_of_readings EmergencyScanBtn).
    + by rewrite (resume_of_readings StopBtn).
  - destruct (document s !! button_id b) as [e|]; [| done].
    destruct (el_disabled e); [done |]. by rewrite onClick_readings.
  - by rewrite onVisibilityChange_readings.
Qed.

Lemma only_snapshots_change_readings_witness :
  emergencyMode (step (Click EmergencyScanBtn) settled) = emergencyMode settled.
Proof.
  exact (proj1 (only_snapshots_change_readings settled (Click EmergencyScanBtn) eq_refl)).
Defined.

(** ** The alert and its timer *)

Lemma next_timer_last (l : list timer) (t : timer) :
  Forall (λ u, due t < due u) l → next_timer (l ++ [t]) = Some t.
Proof.
  induction l as [|u l IH]; [done |]. intros [Hu Hl]%Forall_cons.
  cbn [app next_timer]. rewrite (IH Hl).
  by rewrite (proj2 (Z.ltb_lt _ _) Hu).
Qed.

Lemma run_until_idle (fuel : nat) (t : Z) (s : state) :
  Forall (λ u, t < due u) (timers s) →
  document (run_until fuel t s) = document s
  ∧ (now s ≤ t → fuel ≠ 0%nat ∨ now s = t → now (run_until fuel t s) = t).
Proof.
  intros Hl. destruct fuel as [|fuel]; cbn [run_until].
  - split; [done |]. intros _ [? | ?]; done.
  - destruct (next_timer (timers s)) as [u|] eqn:Hu.
    + apply next_timer_elem in Hu. rewrite Forall_forall in Hl.
      specialize (Hl u Hu). rewrite (proj2 (Z.leb_gt _ _) Hl). state_simpl.
      split; [done |]. intros; lia.
    + state_simpl. split; [done |]. intros; lia.
Qed.

(** X16. An alert raised while no other timer is due within 5000 ms stays
    as it is until its timer fires: at any earlier time nothing on the page
    has changed; at 5000 ms the alert section is hidden, nothing else on
    the page changes, and the message and severity stay in the hidden
    alert. *)
Theorem lone_alert_is_hidden_after_5s (s : state) (ty : string) (msg : text)
    (fuel : nat) (t : Z) :
  has s "alertSection" → has s "healthAlert" → has s "alertMessage" →
  Forall (λ u, now s + 5000 < due u) (timers s) →
  let shown := final (showAlert ty msg s) in
  let after := run_until (S fuel) (now s + 5000) shown in
  alert_shows shown ty msg
  ∧ (now s ≤ t < now s + 5000 →
     document (run_until (S fuel) t shown) = document shown
     ∧ now (run_until (S fuel) t shown) = t)
  ∧ el_display <$> document after !! "alertSection" = Some "none"
  ∧ (∀ id, id ≠ "alertSection" → document after !! id = document shown !! id)
  ∧ now after = now s + 5000.
Proof.
  intros H1 H2 H3 Hl shown after. subst after shown.
  rewrite (showAlert_present ty msg s H1 H2 H3). cbn [final].
  destruct H1 as [e1 H1], H2 as [e2 H2], H3 as [e3 H3].
  match goal with |- alert_shows ?s0 _ _ ∧ _ => set (shown := s0) end.
  assert (timers shown = timers s ++ [hide_timer s]) as Htimers by reflexivity.
  assert (now shown = now s) as Hnow by reflexivity.
  assert (Forall (λ u, now s + 5000 < due u)
            (filter (λ u, tid u ≠ tid (hide_timer s)) (timers shown))) as Hrest.
  { rewrite Htimers, filter_app, filter_cons_False, filter_nil, app_nil_r
      by (intros Hne; by apply Hne).
    by apply Forall_filter_keep. }
  split; [| split].
  - unfold alert_shows. subst shown. state_simpl. lookup_simpl. rewrite H1, H2, H3. done.
  - intros Ht. destruct (run_until_idle (S fuel) t shown) as [Hd Hn].
    { rewrite Htimers. apply Forall_app. split.
      - eapply Forall_impl; [exact Hl |]. intros u Hu. cbv beta in Hu. lia.
      - apply Forall_cons. split; [cbn [due hide_timer]; lia | by apply Forall_nil]. }
    split; [exact Hd | apply Hn; [lia | by left]].
  - cbn [run_until]. rewrite Htimers, (next_timer_last (timers s) (hide_timer s)) by exact Hl.
    cbn [due hide_timer]. rewrite Z.leb_refl. unfold fire. rewrite !bind_modify.
    cbn [cb hide_timer run_callback]. unfold update_element, modify. cbn [final].
    match goal with
    | |- context [run_until fuel ?T ?S0] =>
        destruct (run_until_idle fuel T S0) as [Hd Hn]
    end.
    { exact Hrest. }
    rewrite Hd. state_simpl. split; [| split].
    + rewrite lookup_alter_eq. subst shown. state_simpl. lookup_simpl. by rewrite H1.
    + intros id Hid. by rewrite lookup_alter_ne.
    + apply Hn; state_simpl; cbn [due hide_timer]; rewrite Hnow; [lia |]. right. lia.
Qed.

Lemma lone_alert_is_hidden_after_5s_witness :
  el_display <$> document (run_until 3 5000 (final (showAlert "info" (Lit "hello") loaded)))
                   !! "alertSection" = Some "none".
Proof.
  refine (proj1 (proj2 (proj2
            (lone_alert_is_hidden_after_5s loaded "info" (Lit "hello") 2 0 _ _ _ _)))).
  - vm_compute. eexists. reflexivity.
  - vm_compute. eexists. reflexivity.
  - vm_compute. eexists. reflexivity.
  - apply Forall_nil_2.
Defined.
